(** * The training driver [main.py]: a shallow embedding and its properties

  The driver loads a YAML configuration, merges its includes, splits a
  shuffled dataset, builds a learning-rate schedule, runs the epoch loop
  with checkpoint selection and ends with a test pass that exports a CSV.

  Conventions of the embedding.
  - Python [int] is [Z]; a [list] is a Rocq [list]; a [dict] with string
    keys is a [gmap string _]; a [str] is a [string].
  - Python [float] is binary64.  Where the code does arithmetic on floats
    (the learning-rate schedule) they are the primitive floats of Rocq,
    whose operations are those of IEEE 754 binary64 with rounding to
    nearest even, and [pow], which the C library computes, is a parameter.
    Where the code only compares floats and takes their minimum or maximum
    (the validation metric and best-so-far) they are the rationals [Q] they
    denote: order, minimum and maximum of finite floats are exact; NaN is
    outside the model.
  - A Python computation that may raise returns a [result]: [Ok v] or
    [Raise e] with the exception that leaves the program. *)

From Stdlib Require Import ZArith QArith Qminmax Qabs Lia Ascii.
From Stdlib Require Import Floats.PrimFloat Floats.FloatOps Floats.SpecFloat.
From stdpp Require Import gmap strings list sorting.
From Equations Require Import Equations.

Set Warnings "-register-all".

(** ** Part I. The Python runtime used by the driver *)

Module Py.

(** The exceptions the modelled code can raise, with their message. *)
Inductive exn : Type :=
| AttributeError (msg : string)
| KeyError (msg : string)
| TypeError (msg : string)
| NotImplementedError (msg : string)
| NameError (msg : string)
| ZeroDivisionError (msg : string)
| FileNotFoundError (msg : string)
| OverflowError (msg : string)
| AssertionError
| OtherError (msg : string).

Definition exn_message (e : exn) : string :=
  match e with
  | AttributeError m | KeyError m | TypeError m | NotImplementedError m
  | NameError m | ZeroDivisionError m | FileNotFoundError m
  | OverflowError m | OtherError m => m
  | AssertionError => ""
  end.

Inductive result (A : Type) : Type :=
| Ok (v : A)
| Raise (e : exn).
Arguments Ok {A} v.
Arguments Raise {A} e.

(** Sequencing: an exception raised by the first computation leaves
    the program, and the rest is not run. *)
#[export] Instance result_ret : MRet result := fun _ v => Ok v.
#[export] Instance result_bind : MBind result := fun _ _ k r =>
  match r with
  | Ok v => k v
  | Raise e => Raise e
  end.

(** [assert cond] *)
Definition py_assert (cond : bool) : result unit :=
  if cond then Ok tt else Raise AssertionError.

(** Normalisation of one bound of a slice over a sequence of length
    [len], as [slice.indices] does for step 1: a negative bound counts
    from the end, and the bound is then clamped to [0, len]. *)
Definition slice_bound (len : Z) (i : Z) : Z :=
  if (i <? 0)%Z then Z.max 0 (i + len) else Z.min i len.

(** [l[start:stop]]; [None] is an omitted bound. *)
Definition slice {A} (l : list A) (start stop : option Z) : list A :=
  let len := Z.of_nat (length l) in
  let lo := match start with Some i => slice_bound len i | None => 0%Z end in
  let hi := match stop with Some i => slice_bound len i | None => len end in
  take (Z.to_nat (hi - lo)) (drop (Z.to_nat lo) l).

(** [a < b] on the values of two finite floats. *)
Definition py_lt (a b : Q) : bool :=
  (Qnum a * QDen b <? Qnum b * QDen a)%Z.

(** [min(a, b)]: the first argument unless the second is smaller. *)
Definition py_min (a b : Q) : Q := if py_lt b a then b else a.

(** [max(a, b)]: the first argument unless the second is larger. *)
Definition py_max (a b : Q) : Q := if py_lt a b then b else a.

(** The conversion of an [int] to a [float], as [float(n)] and the mixed
    arithmetic of an [int] with a [float] do it: the nearest binary64
    value, ties to even, and [OverflowError] when that is not finite. *)
Definition float_of_int (n : Z) : result float :=
  let x := SF2Prim (binary_normalize prec emax n 0 false) in
  if is_infinity x
  then Raise (OverflowError "int too large to convert to float")
  else Ok x.

(** [a / b] on floats. *)
Definition py_fdiv (a b : float) : result float :=
  if (b =? 0)%float
  then Raise (ZeroDivisionError "float division by zero")
  else Ok (a / b)%float.

(** The rational a finite float denotes. *)
Definition float_value (x : float) : option Q :=
  match Prim2SF x with
  | S754_zero _ => Some 0%Q
  | S754_finite s m e =>
      Some (inject_Z (if s then Z.neg m else Z.pos m) * 2 ^ e)%Q
  | S754_infinity _ | S754_nan => None
  end.

(** [s.endswith("/")] *)
Fixpoint ends_with_slash (s : string) : bool :=
  match s with
  | EmptyString => false
  | String c EmptyString => Ascii.eqb c "/"%char
  | String _ rest => ends_with_slash rest
  end.

(** [os.path.join(a, b)] on POSIX paths. *)
Definition path_join (a b : string) : string :=
  match b with
  | String "/"%char _ => b
  | _ =>
      if decide (a = "") then b
      else if ends_with_slash a then a +:+ b
      else a +:+ "/" +:+ b
  end.

(** [zip(a, b, c)]: stops with the shortest argument. *)
Fixpoint zip3 {A B C} (a : list A) (b : list B) (c : list C)
  : list (A * B * C) :=
  match a, b, c with
  | x :: a', y :: b', z :: c' => (x, y, z) :: zip3 a' b' c'
  | _, _, _ => []
  end.

End Py.
Export Py.

Lemma bisect_mid_bounds (lo hi : nat) :
lo < hi -> lo <= (lo + hi) / 2 < hi.
Proof.
intros H. split.
- apply Nat.div_le_lower_bound; lia.
- apply Nat.Div0.div_lt_upper_bound; lia.
Qed.

(** The loop of [bisect.bisect] (an alias of [bisect_right]):
  [while lo < hi: mid = (lo + hi) // 2;
     if x < a[mid]: hi = mid  else: lo = mid + 1]
  and the result is [lo]. *)
Equations? bisect_loop (a : list Z) (x : Z) (lo hi : nat) : nat
by wf (hi - lo) lt :=
bisect_loop a x lo hi with decide (lo < hi) => {
  | left _ with decide (x < nth ((lo + hi) / 2) a 0)%Z => {
      | left _ := bisect_loop a x lo ((lo + hi) / 2);
      | right _ := bisect_loop a x ((lo + hi) / 2 + 1) hi };
  | right _ := lo }.
Proof.
all: change (fst (Nat.divmod (lo + hi) 1 0 1)) with ((lo + hi) / 2).
all: match goal with
     | H : ?l < ?h |- _ => pose proof (bisect_mid_bounds l h H)
     end.
all: lia.
Qed.

(** [bisect(a, x)] with the default bounds [lo = 0], [hi = len(a)]. *)
Definition bisect (a : list Z) (x : Z) : nat :=
bisect_loop a x 0 (length a).

(** ** Part II. The driver *)

(** *** Dataset split (lines 136-146 of [main]) *)

Module Split.

(** [assert len(dataset) > tr_sz + va_sz + te_sz] *)
Definition check_sizes (len tr_sz va_sz te_sz : Z) : result unit :=
  py_assert (len >? tr_sz + va_sz + te_sz)%Z.

(** The assertion followed by the three slices of the shuffled dataset:
    [dataset[:tr_sz]], [dataset[tr_sz : tr_sz + va_sz]] and
    [dataset[tr_sz + va_sz : tr_sz + va_sz + te_sz]]. *)
Definition split {A} (dataset : list A) (tr_sz va_sz te_sz : Z)
  : result (list A * list A * list A) :=
  _ ← check_sizes (Z.of_nat (length dataset)) tr_sz va_sz te_sz;
  let train_dataset := slice dataset None (Some tr_sz) in
  let val_dataset := slice dataset (Some tr_sz) (Some (tr_sz + va_sz)%Z) in
  let test_dataset :=
    slice dataset (Some (tr_sz + va_sz)%Z)
          (Some (tr_sz + va_sz + te_sz)%Z) in
  Ok (train_dataset, val_dataset, test_dataset).

(** [main] shuffles the loaded dataset once, when it is loaded, and
    takes the three splits from that one shuffled sequence.  The shuffle
    is the seeded permutation of the data library. *)
Definition shuffle_and_split {A} (shuffle : list A -> list A)
    (loaded : list A) (tr_sz va_sz te_sz : Z)
  : result (list A * list A * list A) :=
  let dataset := shuffle loaded in
  split dataset tr_sz va_sz te_sz.

(** The elements of [l] at the positions [a, b). *)
Definition index_range {A} (l : list A) (a b : nat) : list A :=
  take (b - a) (drop a l).

End Split.

(** *** Learning-rate schedule ([lr_lambda_fun], lines 180-190) *)

Module Schedule.

(** The entries of [config["optim"]] the schedule reads. *)
Record optim : Type := {
  warmup_epochs : Z;
  warmup_factor : float;
  lr_milestones : list Z;
  lr_gamma : float
}.

(** The arithmetic the interpolation is written in: binary64 in the
    program, the rationals when the expression is read exactly. *)
Class Arith (T : Type) : Type := {
  one : T;
  add : T -> T -> T;
  sub : T -> T -> T;
  mul : T -> T -> T
}.

#[export] Instance float_arith : Arith float :=
  {| one := 1%float; add := PrimFloat.add; sub := PrimFloat.sub;
     mul := PrimFloat.mul |}.

#[export] Instance Q_arith : Arith Q :=
  {| one := 1%Q; add := Qplus; sub := Qminus; mul := Qmult |}.

(** [warmup_factor * (1.0 - alpha) + alpha] *)
Definition interpolate {T} `{Arith T} (warmup_factor alpha : T) : T :=
  add (mul warmup_factor (sub one alpha)) alpha.

(** [lr_lambda_fun(current_epoch)]: the closure reads [config["optim"]]
    and nothing else.  [pow x n] is Python's [pow] on a float and an
    integer that is not negative, as the C library of the platform
    computes it. *)
Definition lr_lambda_fun (pow : float -> nat -> result float)
    (cfg : optim) (current_epoch : Z) : result float :=
  if (current_epoch <=? warmup_epochs cfg)%Z then
    w ← float_of_int (warmup_epochs cfg);
    e ← float_of_int current_epoch;
    alpha ← py_fdiv e w;
    Ok (interpolate (warmup_factor cfg) alpha)
  else
    let idx := bisect (lr_milestones cfg) current_epoch in
    pow (lr_gamma cfg) idx.

(** The number of milestones that are at most [e]. *)
Definition milestones_upto (ms : list Z) (e : Z) : nat :=
  length (filter (fun m => (m <= e)%Z) ms).


(** The doubles nearest to 0.2, 0.1, 0.01 and 0.68. *)
Definition f0_2 : float := 0x1.999999999999ap-3%float.
Definition f0_1 : float := 0x1.999999999999ap-4%float.
Definition f0_01 : float := 0x1.47ae147ae147bp-7%float.
Definition f0_68 : float := 0x1.5c28f5c28f5c3p-1%float.

(** The schedule of the examples: five warmup epochs from 0.2,
    milestones 10 and 20, decay 0.1. *)
Definition sample_optim : optim :=
  {| warmup_epochs := 5; warmup_factor := f0_2;
     lr_milestones := [10; 20]%Z; lr_gamma := f0_1 |}.

(** A [pow] to run the examples with: the exact power of a finite base,
    rounded to nearest even, and [OverflowError] when that is not finite;
    [pow x 0] is 1 for every [x]. *)
Definition pow_rounded (x : float) (n : nat) : result float :=
  match n with
  | O => Ok 1%float
  | S _ =>
      match Prim2SF x with
      | S754_finite s m e =>
          let r := SF2Prim (binary_normalize prec emax
                              ((if s then Z.neg m else Z.pos m) ^ Z.of_nat n)
                              (e * Z.of_nat n) false) in
          if is_infinity r
          then Raise (OverflowError "(34, 'Numerical result out of range')")
          else Ok r
      | S754_zero s => Ok (if s && Nat.odd n then (-0)%float else 0%float)
      | S754_infinity s =>
          Ok (if s && Nat.odd n then neg_infinity else infinity)
      | S754_nan => Ok nan
      end
  end.

(** [r] is a returned finite float whose value is within [eps] of [q]. *)
Definition returns_near (r : result float) (q eps : Q) : Prop :=
  exists v x, r = Ok v /\ float_value v = Some x
              /\ (Qabs (x - q) <= eps)%Q.

End Schedule.

(** *** Configuration (module level, lines 66-78; dataset and metric
    selection, lines 118-134 and 262) *)

Module Config.

(** A value loaded by [yaml.safe_load]. Mappings have string keys. *)
Inductive yaml : Type :=
| YNull
| YBool (b : bool)
| YInt (n : Z)
| YFloat (q : Q)
| YStr (s : string)
| YSeq (l : list yaml)
| YMap (m : gmap string yaml).

(** [type(v).__name__] *)
Definition type_name (v : yaml) : string :=
  match v with
  | YNull => "NoneType"
  | YBool _ => "bool"
  | YInt _ => "int"
  | YFloat _ => "float"
  | YStr _ => "str"
  | YSeq _ => "list"
  | YMap _ => "dict"
  end.

(** [str(type(v))], which is what ["{}".format(type(v))] prints. *)
Definition type_repr (v : yaml) : string :=
  "<class '" +:+ type_name v +:+ "'>".

(** [config.update(include_config)]: the keys of a mapping overwrite
    those of [config]; [None], a boolean or a number is not iterable.  For
    a [str] or a [list], [dict.update] reads an iterable of key/value
    pairs, where it can insert keys that are not strings and reads the
    keys of a mapping in file order: that is outside mappings with string
    keys and no order, and is left to the parameter [update_pairs]. *)
Definition dict_update
    (update_pairs : gmap string yaml -> yaml -> result (gmap string yaml))
    (config : gmap string yaml) (include_config : yaml)
  : result (gmap string yaml) :=
  match include_config with
  | YMap m => Ok (m ∪ config)
  | YNull | YBool _ | YInt _ | YFloat _ =>
      Raise (TypeError ("'" +:+ type_name include_config
                        +:+ "' object is not iterable"))
  | YStr _ | YSeq _ => update_pairs config include_config
  end.

(** [config.pop(key)] with no default: [KeyError] when the key is absent. *)
Definition dict_pop (config : gmap string yaml) (key : string)
  : result (gmap string yaml) :=
  match config !! key with
  | Some _ => Ok (delete key config)
  | None => Raise (KeyError ("'" +:+ key +:+ "'"))
  end.

(** The loop [for include in includes: ...]; [load include] stands for
    [yaml.safe_load(open(include, "r"))] on the files of the run. *)
Fixpoint apply_includes (load : yaml -> result yaml)
    (update_pairs : gmap string yaml -> yaml -> result (gmap string yaml))
    (config : gmap string yaml) (includes : list yaml)
  : result (gmap string yaml) :=
  match includes with
  | [] => Ok config
  | include :: rest =>
      include_config ← load include;
      config' ← dict_update update_pairs config include_config;
      apply_includes load update_pairs config' rest
  end.

(** Lines 68-78 on the loaded base mapping [config]. *)
Definition merge_includes (load : yaml -> result yaml)
    (update_pairs : gmap string yaml -> yaml -> result (gmap string yaml))
    (config : gmap string yaml) : result (gmap string yaml) :=
  let includes := default (YSeq []) (config !! "includes") in
  match includes with
  | YSeq l =>
      config' ← apply_includes load update_pairs config l;
      dict_pop config' "includes"
  | other =>
      Raise (AttributeError
               ("Includes must be a list, " +:+ type_repr other
                +:+ " provided"))
  end.

(** The datasets [main] knows. *)
Inductive dataset_kind : Type :=
| UlissigroupCO
| XieGrossmanMatProj
| QM9.

(** The [if]/[elif] chain on [config["task"]["dataset"]]; its [else]
    branch is a bare [raise NotImplementedError]. *)
Definition select_dataset (name : yaml) : result dataset_kind :=
  match name with
  | YStr s =>
      if String.eqb s "ulissigroup_co" then Ok UlissigroupCO
      else if String.eqb s "xie_grossman_mat_proj" then Ok XieGrossmanMatProj
      else if String.eqb s "qm9" then Ok QM9
      else Raise (NotImplementedError "")
  | _ => Raise (NotImplementedError "")
  end.

Definition is_ident_start (c : Ascii.ascii) : bool :=
  let n := Ascii.nat_of_ascii c in
  ((65 <=? n) && (n <=? 90)) || ((97 <=? n) && (n <=? 122)) || (n =? 95).

Definition is_ident_char (c : Ascii.ascii) : bool :=
  let n := Ascii.nat_of_ascii c in
  is_ident_start c || ((48 <=? n) && (n <=? 57)).

Fixpoint all_ident_chars (s : string) : bool :=
  match s with
  | EmptyString => true
  | String c rest => is_ident_char c && all_ident_chars rest
  end.

Definition keywords : list string :=
  ["False"; "None"; "True"; "and"; "as"; "assert"; "async"; "await";
   "break"; "class"; "continue"; "def"; "del"; "elif"; "else"; "except";
   "finally"; "for"; "from"; "global"; "if"; "import"; "in"; "is";
   "lambda"; "nonlocal"; "not"; "or"; "pass"; "raise"; "return"; "try";
   "while"; "with"; "yield"].

(** An ASCII identifier that is not a keyword. *)
Definition is_identifier (s : string) : bool :=
  match s with
  | EmptyString => false
  | String c rest =>
      is_ident_start c && all_ident_chars rest
      && negb (existsb (String.eqb s) keywords)
  end.

(** [eval(config["task"]["metric"])]: a source that is one identifier is
    looked up in the names in scope (module globals and builtins) and an
    unbound one is a [NameError]; [eval_expr] is the evaluator on every
    other source text. *)
Definition eval_metric {obj : Type}
    (eval_expr : gmap string obj -> string -> result obj)
    (scope : gmap string obj) (source : string) : result obj :=
  if is_identifier source then
    match scope !! source with
    | Some f => Ok f
    | None => Raise (NameError ("name '" +:+ source +:+ "' is not defined"))
    end
  else eval_expr scope source.

(** [s] occurs in [t]. *)
Definition occurs_in (s t : string) : Prop :=
  exists pre post, t = pre +:+ s +:+ post.

End Config.

(** *** Export of the test pass ([validate] with [test=True],
    lines 312-315, 339-343 and 380-391) *)

Module TestExport.

(** What one batch of the loader contributes: the targets [data.y] and
    the denormalised predictions [normalizer.denorm(output)], both
    flattened by [view(-1).tolist()]. *)
Record batch : Type := {
  y : list Q;
  denorm_output : list Q
}.

(** The three lists [validate] creates when [test] is set. *)
Record test_lists : Type := {
  test_targets : list Q;
  test_preds : list Q;
  test_cif_ids : list string
}.

(** [test_targets = []; test_preds = []; test_cif_ids = []] *)
Definition empty_lists : test_lists :=
  {| test_targets := []; test_preds := []; test_cif_ids := [] |}.

(** The [if test:] block of the batch loop: [test_preds += ...] and
    [test_targets += ...]; no statement touches [test_cif_ids]. *)
Definition collect (acc : test_lists) (data : batch) : test_lists :=
  {| test_targets := test_targets acc ++ y data;
     test_preds := test_preds acc ++ denorm_output data;
     test_cif_ids := test_cif_ids acc |}.

(** The rows [writer.writerow((cif_id, target, pred))] writes to
    [test_results.csv] after the batch loop. *)
Definition test_results_csv (batches : list batch)
  : list (string * Q * Q) :=
  let acc := fold_left collect batches empty_lists in
  zip3 (test_cif_ids acc) (test_targets acc) (test_preds acc).

(** The number of per-sample targets collected during the pass. *)
Definition samples (batches : list batch) : nat :=
  length (flat_map y batches).

End TestExport.

(** *** Batch loops: progress lines and logging steps ([train], lines
    277-289; [validate], lines 321-378) *)

Module Progress.
Import TestExport.

(** [a % b] on integers. *)
Definition py_mod (a b : Z) : result Z :=
  if (b =? 0)%Z
  then Raise (ZeroDivisionError "integer division or modulo by zero")
  else Ok (a mod b)%Z.

(** The step under which batch [i] of [epoch] is logged:
    [epoch * len(loader) + i]. *)
Definition log_step (epoch len_loader i : nat) : nat :=
  epoch * len_loader + i.

(** The steps logged by the batch loop of one epoch. *)
Definition epoch_steps (epoch len_loader : nat) : list nat :=
  log_step epoch len_loader <$> seq 0 len_loader.

(** The steps logged by [max_epochs] epochs, in the order of logging. *)
Definition run_steps (max_epochs len_loader : nat) : list nat :=
  flat_map (fun epoch => epoch_steps epoch len_loader) (seq 0 max_epochs).

(** The batch loop of [validate] from batch [i] on, with the framework
    calls of a batch taken to return: the lists of the test pass are
    extended when [test] is set, and the batch index is printed when
    [i % print_every == 0]. *)
Fixpoint validate_loop (print_every : Z) (test : bool) (i : Z)
    (batches : list batch) (acc : test_lists) (printed : list Z)
  : result (test_lists * list Z) :=
  match batches with
  | [] => Ok (acc, printed)
  | data :: rest =>
      let acc' := if test then collect acc data else acc in
      r ← py_mod i print_every;
      let printed' := if (r =? 0)%Z then printed ++ [i] else printed in
      validate_loop print_every test (i + 1) rest acc' printed'
  end.

(** The batch loop of [train] from batch [i] on, with the framework
    calls of a batch taken to return: the batch index is printed when
    [i % print_every == 0]. *)
Fixpoint train_loop (print_every : Z) (i : Z) (len_loader : nat)
    (printed : list Z) : result (list Z) :=
  match len_loader with
  | O => Ok printed
  | S rest =>
      r ← py_mod i print_every;
      let printed' := if (r =? 0)%Z then printed ++ [i] else printed in
      train_loop print_every (i + 1) rest printed'
  end.

(** [train] over a loader of [len_loader] batches: the batch indices of
    its progress lines. *)
Definition train_pass (print_every : Z) (len_loader : nat)
  : result (list Z) :=
  train_loop print_every 0 len_loader [].

(** [config["task"]["dataset"] == "qm9"] *)
Definition is_qm9 (dataset : Config.yaml) : bool :=
  match dataset with
  | Config.YStr s => String.eqb s "qm9"
  | _ => false
  end.

(** What a call of [validate] leaves behind, apart from the returned
    average: the batch indices of its progress lines and, in the test
    pass, the rows of [test_results.csv]. *)
Record validate_outcome : Type := {
  progress : list Z;
  csv : option (list (string * Q * Q))
}.

(** [validate]: the batch loop, then the per-target report for [qm9],
    which reads the loop variables [data] and [output] and so finds them
    unbound after a loop over no batch ([UnboundLocalError], a
    [NameError]), then the export of the test pass. *)
Definition validate_pass (dataset : Config.yaml) (print_every : Z)
    (test : bool) (batches : list batch) : result validate_outcome :=
  '(acc, printed) ← validate_loop print_every test 0 batches empty_lists [];
  _ ← (if is_qm9 dataset then
         match batches with
         | [] =>
             Raise (NameError
                      "local variable 'data' referenced before assignment")
         | _ :: _ => Ok tt
         end
       else Ok tt);
  Ok {| progress := printed;
        csv := if test
               then Some (zip3 (test_cif_ids acc) (test_targets acc)
                               (test_preds acc))
               else None |}.

End Progress.

(** *** Epoch loop and checkpoint selection ([main], lines 115 and
    198-233) *)

Module Loop.

Section Run.

Context {params opt_state norm_state config_t : Type}.

(** The values stored in a checkpoint record. *)
Inductive pyval : Type :=
| PInt (n : Z)
| PFloat (q : Q)
| PParams (p : params)
| POptim (o : opt_state)
| PNorm (n : norm_state)
| PConfig (c : config_t).

(** What a run is made of: the configuration entries the loop reads and
    the outcome of the framework calls of each epoch. *)
Record run : Type := {
  max_epochs : Z;
  task_type : string;
  config : config_t;
  normalizer : norm_state;
  (** the value [validate(val_loader, ...)] returns in epoch [e] *)
  val_mae : nat -> Q;
  (** [model.state_dict()] at the end of epoch [e] *)
  model_state : nat -> params;
  (** [optimizer.state_dict()] at the end of epoch [e] *)
  optimizer_state : nat -> opt_state;
  (** the batches of the test loader under the given parameters *)
  test_batches : params -> list TestExport.batch;
  (** [config["cmd"]["checkpoint_dir"]] *)
  checkpoint_dir : string;
  (** [config["task"]["dataset"]] and [config["cmd"]["print_every"]] *)
  dataset : Config.yaml;
  print_every : Z;
  (** [len(train_loader)] and the batches of the validation loader in
      epoch [e] *)
  train_len : nat;
  val_batches : nat -> list TestExport.batch;
  (** [scheduler.step()] in epoch [e]: the scheduler of the framework,
      which evaluates [lr_lambda_fun] and so can raise what it raises *)
  scheduler_step : nat -> result unit
}.

(** [best_mae_error = 1e10] *)
Definition initial_best_mae_error : Q := 10000000000 # 1.

(** Lines 208-213: the flag and the new best-so-far. *)
Definition select_best (task_type : string) (mae_error best_mae_error : Q)
  : bool * Q :=
  if String.eqb task_type "regression" then
    (py_lt mae_error best_mae_error, py_min mae_error best_mae_error)
  else
    (py_lt best_mae_error mae_error, py_max mae_error best_mae_error).

(** The dictionary literal passed to [save_checkpoint] in epoch [e]. *)
Definition checkpoint_state (r : run) (e : nat) (best_mae_error : Q)
  : gmap string pyval :=
  list_to_map
    [("epoch", PInt (Z.of_nat e + 1));
     ("state_dict", PParams (model_state r e));
     ("best_mae_error", PFloat best_mae_error);
     ("optimizer", POptim (optimizer_state r e));
     ("normalizer", PNorm (normalizer r));
     ("config", PConfig (config r))].

(** A write into the checkpoint directory. *)
Inductive write : Type :=
| WriteCheckpoint (state : gmap string pyval)
| WriteBest (state : gmap string pyval).

(** Modelled from the spec: [cgcnn.utils.save_checkpoint] is not among the
    sources.  The record is written every time, and a second copy, the
    best checkpoint, is written only when [is_best] holds. *)
Definition save_checkpoint (state : gmap string pyval) (is_best : bool)
  : list write :=
  WriteCheckpoint state :: (if is_best then [WriteBest state] else []).

(** The variables the loop carries: best-so-far and the writes done. *)
Record loop_state : Type := {
  best_mae_error : Q;
  writes : list write
}.

(** The body of [for epoch in range(max_epochs)] after the framework
    calls. *)
Definition epoch_body (r : run) (st : loop_state) (epoch : nat)
  : loop_state :=
  let mae_error := val_mae r epoch in
  let '(is_best, best) :=
    select_best (task_type r) mae_error (best_mae_error st) in
  {| best_mae_error := best;
     writes := writes st
               ++ save_checkpoint (checkpoint_state r epoch best) is_best |}.

Definition initial_state : loop_state :=
  {| best_mae_error := initial_best_mae_error; writes := [] |}.

(** The first [n] epochs. *)
Definition run_epochs (r : run) (n : nat) : loop_state :=
  fold_left (epoch_body r) (seq 0 n) initial_state.

(** [for epoch in range(config["optim"]["max_epochs"])] *)
Definition training_loop (r : run) : loop_state :=
  run_epochs r (Z.to_nat (max_epochs r)).

(** Modelled from the spec: the content of the best-checkpoint file after
    the given writes into the freshly created checkpoint directory, that
    is the last best copy, if there is one. *)
Fixpoint best_file (ws : list write) : option (gmap string pyval) :=
  match ws with
  | [] => None
  | w :: rest =>
      match best_file rest with
      | Some state => Some state
      | None =>
          match w with
          | WriteBest state => Some state
          | WriteCheckpoint _ => None
          end
      end
  end.

(** [torch.load(os.path.join(checkpoint_dir, "model_best.pth.tar"))]:
    the file is opened for reading, and a missing file is the
    [FileNotFoundError] of [open] with the path in its message. *)
Definition load_best (checkpoint_dir : string) (ws : list write)
  : result (gmap string pyval) :=
  match best_file ws with
  | Some state => Ok state
  | None =>
      Raise (FileNotFoundError
               ("[Errno 2] No such file or directory: '"
                +:+ path_join checkpoint_dir "model_best.pth.tar" +:+ "'"))
  end.

(** The calls of epoch [e] that can raise before the checkpoint is
    written: [train] and [validate] in their batch loops, then
    [scheduler.step()].  The metric name is taken to resolve and the other
    framework calls to return. *)
Definition epoch_calls (r : run) (e : nat) : result unit :=
  _ ← Progress.train_pass (print_every r) (train_len r);
  _ ← Progress.validate_pass (dataset r) (print_every r) false
        (val_batches r e);
  scheduler_step r e.

(** The first exception among the calls of the given epochs, if any. *)
Fixpoint epochs_return (r : run) (epochs : list nat) : result unit :=
  match epochs with
  | [] => Ok tt
  | e :: rest => _ ← epoch_calls r e; epochs_return r rest
  end.

(** [main] from the loop on: the epochs, the reload of the best
    parameters and the test pass.  An exception in an epoch leaves the
    program there; otherwise the loop is [training_loop], and the result
    is what the test pass leaves behind. *)
Definition main (r : run) : result Progress.validate_outcome :=
  _ ← epochs_return r (seq 0 (Z.to_nat (max_epochs r)));
  let st := training_loop r in
  best_checkpoint ← load_best (checkpoint_dir r) (writes st);
  match best_checkpoint !! "state_dict" with
  | Some (PParams p) =>
      Progress.validate_pass (dataset r) (print_every r) true
        (test_batches r p)
  | _ => Raise (KeyError "'state_dict'")
  end.

(** Best-so-far before epoch [e], told by recursion on the epochs. *)
Fixpoint best_before (r : run) (e : nat) : Q :=
  match e with
  | O => initial_best_mae_error
  | S e' => snd (select_best (task_type r) (val_mae r e') (best_before r e'))
  end.

(** The flag [is_best] of epoch [e]. *)
Definition is_best_at (r : run) (e : nat) : bool :=
  fst (select_best (task_type r) (val_mae r e) (best_before r e)).

(** The record written in epoch [e]: it holds best-so-far as updated in
    that epoch. *)
Definition record_of (r : run) (e : nat) : gmap string pyval :=
  checkpoint_state r e (best_before r (S e)).

(** The validation metric of epoch [e] improves on best-so-far, in the
    direction of the task type. *)
Definition improves (r : run) (e : nat) : Prop :=
  if String.eqb (task_type r) "regression"
  then (val_mae r e < best_before r e)%Q
  else (best_before r e < val_mae r e)%Q.


End Run.

Arguments pyval : clear implicits.
Arguments run : clear implicits.
Arguments write : clear implicits.
Arguments loop_state : clear implicits.

(** A run of two epochs over placeholder framework states, with the
    validation metrics 5 and 7. *)
Definition sample_run (task : string) : run unit unit unit unit :=
  {| max_epochs := 2; task_type := task; config := tt; normalizer := tt;
     val_mae := fun e => match e with O => 5 # 1 | _ => 7 # 1 end;
     model_state := fun _ => tt; optimizer_state := fun _ => tt;
     test_batches := fun _ => [];
     checkpoint_dir := "checkpoints/2020-01-02-03-04-05";
     dataset := Config.YStr "ulissigroup_co"; print_every := 10;
     train_len := 3;
     val_batches := fun _ =>
       [ {| TestExport.y := [1%Q]; TestExport.denorm_output := [1%Q] |} ];
     scheduler_step := fun _ => Ok tt
  |}.

End Loop.

(** *** Run setup (module level, lines 82-84) *)

Module Setup.
Import Config.

(** [args.timestamp] once [if args.identifier: args.timestamp +=
    "-{}".format(args.identifier)] has run; an empty identifier is
    false. *)
Definition run_name (timestamp identifier : string) : string :=
  if decide (identifier = "") then timestamp
  else timestamp +:+ "-" +:+ identifier.

(** A base mapping with two includes, and the files of a run: the first
    include names a further include of its own. *)
Definition sample_base : gmap string yaml :=
  {[ "includes" := YSeq [YStr "a.yml"; YStr "b.yml"];
     "task" := YStr "base"; "model" := YStr "base";
     "cmd" := YStr "base" ]}.

Definition sample_a : gmap string yaml :=
  {[ "includes" := YSeq [YStr "c.yml"]; "task" := YStr "a";
     "optim" := YStr "a" ]}.

Definition sample_b : gmap string yaml := {[ "task" := YStr "b" ]}.

Definition sample_files (include : yaml) : result yaml :=
  match include with
  | YStr "a.yml" => Ok (YMap sample_a)
  | YStr "b.yml" => Ok (YMap sample_b)
  | YStr "empty.yml" => Ok YNull
  | _ => Raise (FileNotFoundError "No such file or directory")
  end.

(** The same files, with a third one present. *)
Definition sample_files_more (include : yaml) : result yaml :=
  match include with
  | YStr "c.yml" => Ok (YMap {[ "task" := YStr "c" ]})
  | _ => sample_files include
  end.

(** Base mappings whose second include is missing, or empty. *)
Definition sample_base_missing : gmap string yaml :=
  {[ "includes" := YSeq [YStr "a.yml"; YStr "missing.yml"; YStr "b.yml"] ]}.

Definition sample_base_empty : gmap string yaml :=
  {[ "includes" := YSeq [YStr "a.yml"; YStr "empty.yml"; YStr "b.yml"] ]}.

(** [dict.update] on a sequence of pairs, for runs whose includes are
    mappings: not reached. *)
Definition sample_update_pairs (config : gmap string yaml) (pairs : yaml)
  : result (gmap string yaml) :=
  Raise (OtherError "not a mapping").

End Setup.

(** ** Part III. Properties *)

(** *** Dataset split *)

Module SplitFacts.
Import Split.

Lemma check_sizes_ok_iff (len tr_sz va_sz te_sz : Z) :
  check_sizes len tr_sz va_sz te_sz = Ok tt
  <-> (tr_sz + va_sz + te_sz < len)%Z.
Proof.
  unfold check_sizes, py_assert.
  destruct (Z.gtb_spec len (tr_sz + va_sz + te_sz)); split;
    intros; (done || lia).
Qed.

Lemma slice_bound_inside (len i : Z) :
  (0 <= i <= len)%Z -> slice_bound len i = i.
Proof.
  intros H. unfold slice_bound.
  destruct (Z.ltb_spec i 0); lia.
Qed.

Lemma slice_prefix {A} (l : list A) (b : Z) :
  (0 <= b <= Z.of_nat (length l))%Z ->
  slice l None (Some b) = index_range l 0 (Z.to_nat b).
Proof.
  intros H. unfold slice, index_range.
  rewrite slice_bound_inside by done.
  f_equal. lia.
Qed.

Lemma slice_inside {A} (l : list A) (a b : Z) :
  (0 <= a <= b)%Z -> (b <= Z.of_nat (length l))%Z ->
  slice l (Some a) (Some b) = index_range l (Z.to_nat a) (Z.to_nat b).
Proof.
  intros Hab Hb. unfold slice, index_range.
  rewrite !slice_bound_inside by lia.
  f_equal. lia.
Qed.

(** Position [i] of a range is position [a + i] of the list, as long as
    that stays below [b]. *)
Lemma index_range_lookup {A} (l : list A) (a b i : nat) :
  index_range l a b !! i = if decide (a + i < b) then l !! (a + i) else None.
Proof.
  unfold index_range. case_decide.
  - rewrite lookup_take_lt by lia. apply lookup_drop.
  - apply lookup_take_ge. lia.
Qed.

Lemma index_range_length {A} (l : list A) (a b : nat) :
  a <= b <= length l -> length (index_range l a b) = b - a.
Proof.
  intros H. unfold index_range.
  rewrite length_take, length_drop. lia.
Qed.

(** Adjacent ranges concatenate. *)
Lemma index_range_app {A} (l : list A) (a b c : nat) :
  a <= b <= c ->
  index_range l a b ++ index_range l b c = index_range l a c.
Proof.
  intros H. unfold index_range.
  replace (drop b l) with (drop (b - a) (drop a l))
    by (rewrite drop_drop; f_equal; lia).
  rewrite take_take_drop. f_equal. lia.
Qed.

Lemma index_range_NoDup {A} (l : list A) (a b : nat) :
  NoDup l -> NoDup (index_range l a b).
Proof.
  intros H. unfold index_range.
  assert (Hsub : take (b - a) (drop a l) `sublist_of` l).
  { transitivity (drop a l); [apply sublist_take | apply sublist_drop]. }
  exact (sublist_NoDup _ _ H Hsub).
Qed.

(** C1, as the code has it: the assertion fails exactly when the dataset
    length is at most the sum of the three sizes, and passes exactly when
    the length is strictly larger; a dataset that the sizes use up
    entirely is refused. *)
Theorem check_sizes_fails_iff (len tr_sz va_sz te_sz : Z) :
  (check_sizes len tr_sz va_sz te_sz = Raise AssertionError
   <-> (len <= tr_sz + va_sz + te_sz)%Z)
  /\ (check_sizes len tr_sz va_sz te_sz = Ok tt
      <-> (tr_sz + va_sz + te_sz < len)%Z).
Proof.
  split; [|apply check_sizes_ok_iff].
  unfold check_sizes, py_assert.
  destruct (Z.gtb_spec len (tr_sz + va_sz + te_sz)); split;
    intros; (done || lia).
Qed.

(** C1 as stated fails: a dataset of 100 samples with sizes 60, 20 and 20
    has a length equal to the sum, and the assertion does not pass. *)
Lemma check_sizes_exact_fit_refused :
  ~ ((100 >= 60 + 20 + 20)%Z -> check_sizes 100 60 20 20 = Ok tt).
Proof.
  intros H. specialize (H ltac:(lia)). vm_compute in H. discriminate H.
Qed.

(** C8: when the sizes are not negative and the assertion passes, the
    three splits of the once-shuffled dataset are its index ranges
    [0, tr), [tr, tr + va) and [tr + va, tr + va + te), of exactly these
    lengths; side by side they are the first [tr + va + te] samples, so
    that no sample of a duplicate-free dataset is in two splits or twice
    in one. *)
Theorem split_contiguous {A} (shuffle : list A -> list A) (loaded : list A)
    (tr_sz va_sz te_sz : Z) :
  (0 <= tr_sz)%Z -> (0 <= va_sz)%Z -> (0 <= te_sz)%Z ->
  (tr_sz + va_sz + te_sz < Z.of_nat (length (shuffle loaded)))%Z ->
  let dataset := shuffle loaded in
  let tr := Z.to_nat tr_sz in
  let va := Z.to_nat va_sz in
  let te := Z.to_nat te_sz in
  exists train val test,
    shuffle_and_split shuffle loaded tr_sz va_sz te_sz
      = Ok (train, val, test)
    /\ train = index_range dataset 0 tr
    /\ val = index_range dataset tr (tr + va)
    /\ test = index_range dataset (tr + va) (tr + va + te)
    /\ (forall i, i < tr -> train !! i = dataset !! i)
    /\ (forall i, i < va -> val !! i = dataset !! (tr + i))
    /\ (forall i, i < te -> test !! i = dataset !! (tr + va + i))
    /\ length train = tr /\ length val = va /\ length test = te
    /\ train ++ val ++ test = take (tr + va + te) dataset
    /\ (NoDup dataset -> NoDup (train ++ val ++ test)).
Proof.
  intros Htr Hva Hte Hlen dataset tr va te.
  assert (Hsum : tr + va + te < length dataset)
    by (subst tr va te dataset; lia).
  exists (index_range dataset 0 tr), (index_range dataset tr (tr + va)),
    (index_range dataset (tr + va) (tr + va + te)).
  assert (Happ : index_range dataset 0 tr
                 ++ index_range dataset tr (tr + va)
                 ++ index_range dataset (tr + va) (tr + va + te)
                 = index_range dataset 0 (tr + va + te)).
  { rewrite !index_range_app by lia. done. }
  repeat split.
  - unfold shuffle_and_split, split. fold dataset.
    assert (Hck : check_sizes (Z.of_nat (length dataset)) tr_sz va_sz te_sz
                  = Ok tt) by (apply check_sizes_ok_iff; lia).
    rewrite Hck. cbn.
    rewrite slice_prefix by lia.
    rewrite !slice_inside by lia.
    subst tr va te. rewrite !Z2Nat.inj_add by lia. done.
  - intros i Hi. rewrite index_range_lookup. by rewrite decide_True by lia.
  - intros i Hi. rewrite index_range_lookup. by rewrite decide_True by lia.
  - intros i Hi. rewrite index_range_lookup. by rewrite decide_True by lia.
  - rewrite index_range_length; lia.
  - rewrite index_range_length; lia.
  - rewrite index_range_length; lia.
  - rewrite Happ. unfold index_range. rewrite drop_0. f_equal. lia.
  - intros Hnd. rewrite Happ. by apply index_range_NoDup.
Qed.

(** The ranges of C8 on a run: ten samples, shuffled by reversal, with
    sizes 3, 2 and 2. *)
Lemma split_contiguous_witness :
  exists train val test,
    shuffle_and_split (@rev nat) [0; 1; 2; 3; 4; 5; 6; 7; 8; 9] 3 2 2
      = Ok (train, val, test)
    /\ train = [9; 8; 7] /\ val = [6; 5] /\ test = [4; 3].
Proof.
  destruct (split_contiguous (@rev nat) [0; 1; 2; 3; 4; 5; 6; 7; 8; 9]
              3 2 2 ltac:(lia) ltac:(lia) ltac:(lia) ltac:(simpl; lia))
    as (train & val & test & Hrun & Htrain & Hval & Htest & _).
  exists train, val, test.
  split; [exact Hrun|].
  split; [exact Htrain|].
  split; [exact Hval|exact Htest].
Defined.

End SplitFacts.

(** *** Learning-rate schedule *)

Module ScheduleFacts.
Import Schedule.

(** In an ascending list, an earlier entry is at most a later one. *)
Lemma ascending_lookup (ms : list Z) (i j : nat) (x y : Z) :
  StronglySorted Z.le ms -> i <= j ->
  ms !! i = Some x -> ms !! j = Some y -> (x <= y)%Z.
Proof.
  intros Hs. revert i j.
  induction Hs as [|m ms Hs IH Hall]; intros i j Hij Hi Hj.
  - by rewrite lookup_nil in Hi.
  - destruct i as [|i], j as [|j]; simplify_eq/=; try lia.
    + eapply Forall_lookup_1 in Hall; [|exact Hj]. done.
    + eapply IH; [|exact Hi|exact Hj]. lia.
Qed.

(** The loop invariant of the binary search: everything before [lo] is at
    most [x], everything from [hi] on is larger; at the exit this holds
    around the result. *)
Lemma bisect_loop_partition (a : list Z) (x : Z) (lo hi : nat) :
  StronglySorted Z.le a -> lo <= hi <= length a ->
  (forall i y, i < lo -> a !! i = Some y -> (y <= x)%Z) ->
  (forall i y, hi <= i -> a !! i = Some y -> (x < y)%Z) ->
  bisect_loop a x lo hi <= length a
  /\ (forall i y, i < bisect_loop a x lo hi -> a !! i = Some y -> (y <= x)%Z)
  /\ (forall i y, bisect_loop a x lo hi <= i -> a !! i = Some y -> (x < y)%Z).
Proof.
  intros Hs. funelim (bisect_loop a x lo hi); intros Hb Hlow Hhigh.
  - (* lo = hi: the loop is left *)
    split; [lia|]. split; [done|].
    intros i y Hi Hy. apply (Hhigh i); [lia|done].
  - (* x < a[mid]: hi becomes mid *)
    match goal with
    | Hlt : lo < hi |- _ => pose proof (bisect_mid_bounds lo hi Hlt) as Hm
    end.
    destruct (lookup_lt_is_Some_2 a ((lo + hi) / 2)) as [v Hv]; [lia|].
    pose proof (nth_lookup_Some _ _ 0%Z _ Hv) as Hn.
    match goal with
    | IH : StronglySorted _ _ -> _ |- _ => apply IH; [done|lia|done|]
    end.
    intros i y Hi Hy.
    pose proof (ascending_lookup a _ _ _ _ Hs Hi Hv Hy). lia.
  - (* otherwise lo becomes mid + 1 *)
    match goal with
    | Hlt : lo < hi |- _ => pose proof (bisect_mid_bounds lo hi Hlt) as Hm
    end.
    destruct (lookup_lt_is_Some_2 a ((lo + hi) / 2)) as [v Hv]; [lia|].
    pose proof (nth_lookup_Some _ _ 0%Z _ Hv) as Hn.
    match goal with
    | IH : StronglySorted _ _ -> _ |- _ => apply IH; [done|lia| |done]
    end.
    intros i y Hi Hy.
    assert (Hle : i <= (lo + hi) / 2) by lia.
    pose proof (ascending_lookup a _ _ _ _ Hs Hle Hy Hv). lia.
Qed.

Lemma filter_all {A} (P : A -> Prop) `{!forall x, Decision (P x)}
    (l : list A) :
  Forall P l -> filter P l = l.
Proof.
  induction 1 as [|x l Hx _ IH]; [done|].
  by rewrite filter_cons_True, IH.
Qed.

Lemma filter_none {A} (P : A -> Prop) `{!forall x, Decision (P x)}
    (l : list A) :
  Forall (fun x => ~ P x) l -> filter P l = [].
Proof.
  induction 1 as [|x l Hx _ IH]; [done|].
  by rewrite filter_cons_False.
Qed.

(** A position that separates the entries at most [x] from the larger
    ones is the number of entries at most [x]. *)
Lemma partition_count (a : list Z) (x : Z) (r : nat) :
  r <= length a ->
  (forall i y, i < r -> a !! i = Some y -> (y <= x)%Z) ->
  (forall i y, r <= i -> a !! i = Some y -> (x < y)%Z) ->
  milestones_upto a x = r.
Proof.
  intros Hr Hlow Hhigh. unfold milestones_upto.
  rewrite <- (take_drop r a) at 1. rewrite filter_app, length_app.
  rewrite filter_all, filter_none.
  - rewrite length_take. simpl. lia.
  - apply Forall_lookup_2. intros i y Hy.
    rewrite lookup_drop in Hy. specialize (Hhigh (r + i) y ltac:(lia) Hy). lia.
  - apply Forall_lookup_2. intros i y Hy.
    apply lookup_take_Some in Hy as [Hy Hi]. by apply (Hlow i).
Qed.

(** On ascending milestones [bisect] counts the milestones that are at
    most the epoch, the epoch itself included. *)
Lemma bisect_counts_upto (ms : list Z) (e : Z) :
  StronglySorted Z.le ms -> bisect ms e = milestones_upto ms e.
Proof.
  intros Hs. unfold bisect.
  destruct (bisect_loop_partition ms e 0 (length ms) Hs)
    as (Hr & Hlow & Hhigh).
  - lia.
  - intros i y Hi. lia.
  - intros i y Hi Hy. apply lookup_lt_Some in Hy. lia.
  - symmetry. by apply partition_count.
Qed.

Lemma Ok_inj {A} (a b : A) : Ok a = Ok b -> a = b.
Proof. intros H. by injection H. Qed.

(** Floats with different representations are different. *)
Lemma float_neq (a b : float) : Prim2SF a <> Prim2SF b -> a <> b.
Proof. intros H Heq. apply H. by rewrite Heq. Qed.

(** The warmup branch, as the sequence of its operations. *)
Lemma lr_in_warmup (pow : float -> nat -> result float) (cfg : optim)
    (e : Z) (fw fe : float) :
  (e <= warmup_epochs cfg)%Z ->
  float_of_int (warmup_epochs cfg) = Ok fw -> float_of_int e = Ok fe ->
  lr_lambda_fun pow cfg e
  = (alpha ← py_fdiv fe fw; Ok (interpolate (warmup_factor cfg) alpha)).
Proof.
  intros He Hw Hfe. unfold lr_lambda_fun.
  rewrite (proj2 (Z.leb_le _ _) He), Hw. cbn [mbind result_bind].
  unfold mbind at 1, result_bind at 1. by rewrite Hfe.
Qed.

(** The decay branch. *)
Lemma lr_past_warmup (pow : float -> nat -> result float) (cfg : optim)
    (e : Z) :
  (warmup_epochs cfg < e)%Z ->
  lr_lambda_fun pow cfg e
  = pow (lr_gamma cfg) (bisect (lr_milestones cfg) e).
Proof.
  intros He. unfold lr_lambda_fun. by rewrite (proj2 (Z.leb_gt _ _) He).
Qed.

(** The decay branch, on ascending milestones. *)
Lemma lr_decay (pow : float -> nat -> result float) (cfg : optim) (e : Z) :
  (warmup_epochs cfg < e)%Z -> StronglySorted Z.le (lr_milestones cfg) ->
  lr_lambda_fun pow cfg e
  = pow (lr_gamma cfg) (milestones_upto (lr_milestones cfg) e).
Proof.
  intros He Hs. by rewrite lr_past_warmup, bisect_counts_upto.
Qed.

(** With no warmup epochs the call for epoch 0 divides by zero. *)
Lemma lr_zero_warmup_raises (pow : float -> nat -> result float)
    (f g : float) (ms : list Z) :
  lr_lambda_fun pow {| warmup_epochs := 0; warmup_factor := f;
                       lr_milestones := ms; lr_gamma := g |} 0
  = Raise (ZeroDivisionError "float division by zero").
Proof. done. Qed.



Lemma sample_milestones_ascending : StronglySorted Z.le [10; 20]%Z.
Proof. repeat constructor. lia. Qed.



(** C7, as the code has it: with five warmup epochs from 0.2 the
    multiplier is the double 0.2 at epoch 0, 1.0 at epoch 5, and within
    2^-52 of [0.2 + 0.16 * e] at every epoch from 0 to 5; with milestones
    10 and 20, decay 0.1 and the warmup over before epoch 15, it is
    [pow(0.1, 1)] at epoch 15 and [pow(0.1, 2)] at epoch 25, which a [pow]
    that rounds to nearest gives as the double 0.1 and as a double within
    2^-58 of 0.01. *)
Theorem lr_schedule_examples :
  (forall (pow : float -> nat -> result float) (ms : list Z) (g : float),
     let cfg := {| warmup_epochs := 5; warmup_factor := f0_2;
                   lr_milestones := ms; lr_gamma := g |} in
     lr_lambda_fun pow cfg 0 = Ok f0_2
     /\ lr_lambda_fun pow cfg 5 = Ok 1%float
     /\ (forall e, (0 <= e <= 5)%Z ->
         returns_near (lr_lambda_fun pow cfg e)
           ((1 # 5) + (4 # 25) * inject_Z e) (1 # 4503599627370496)))
  /\ (forall (pow : float -> nat -> result float) (w : Z) (f : float),
        (w < 15)%Z ->
        let cfg := {| warmup_epochs := w; warmup_factor := f;
                      lr_milestones := [10; 20]%Z; lr_gamma := f0_1 |} in
        lr_lambda_fun pow cfg 15 = pow f0_1 1
        /\ lr_lambda_fun pow cfg 25 = pow f0_1 2)
  /\ (pow_rounded f0_1 1 = Ok f0_1
      /\ returns_near (pow_rounded f0_1 2) (1 # 100)
           (1 # 288230376151711744)).
Proof.
  split; [|split].
  - intros pow ms g cfg. split; [done|]. split; [done|].
    intros e He.
    assert (Hcases : e = 0%Z \/ e = 1%Z \/ e = 2%Z \/ e = 3%Z \/ e = 4%Z
                     \/ e = 5%Z) by lia.
    destruct Hcases as [->|[->|[->|[->|[->| ->]]]]];
      (do 2 eexists; split; [vm_compute; reflexivity|];
       split; [vm_compute; reflexivity|]; vm_compute; discriminate).
  - intros pow w f Hw cfg. split.
    + rewrite lr_decay; [done|simpl; lia|exact sample_milestones_ascending].
    + rewrite lr_decay; [done|simpl; lia|exact sample_milestones_ascending].
  - split; [vm_compute; reflexivity|].
    do 2 eexists. split; [vm_compute; reflexivity|].
    split; [vm_compute; reflexivity|]. vm_compute. discriminate.
Qed.

Lemma lr_schedule_examples_witness :
  returns_near (lr_lambda_fun pow_rounded sample_optim 2)
    ((1 # 5) + (4 # 25) * inject_Z 2) (1 # 4503599627370496)
  /\ lr_lambda_fun pow_rounded sample_optim 15 = pow_rounded f0_1 1
  /\ lr_lambda_fun pow_rounded sample_optim 25 = pow_rounded f0_1 2.
Proof.
  destruct lr_schedule_examples as (Hwarm & Hdecay & _).
  destruct (Hwarm pow_rounded [10; 20]%Z f0_1) as (_ & _ & Hlin).
  destruct (Hdecay pow_rounded 5%Z f0_2 ltac:(lia)) as [H15 H25].
  split; [apply Hlin; lia|].
  split; [exact H15|exact H25].
Defined.

(** C7 as stated fails in the warmup: the multiplier at epoch 3 is
    neither of value 0.68, the point on the line, nor the double nearest
    to it; and the multiplier at epoch 25 under a [pow] that rounds to
    nearest is not the double 0.01. *)
Lemma lr_examples_not_exact :
  ~ (returns_near (lr_lambda_fun pow_rounded sample_optim 3) (17 # 25) 0
     \/ lr_lambda_fun pow_rounded sample_optim 3 = Ok f0_68
     \/ lr_lambda_fun pow_rounded sample_optim 25 = Ok f0_01).
Proof.
  intros [(v & x & Hv & Hx & Hle)|[H|H]].
  - vm_compute in Hv. apply Ok_inj in Hv. subst v.
    vm_compute in Hx. injection Hx as <-.
    vm_compute in Hle. by apply Hle.
  - vm_compute in H. apply Ok_inj in H.
    revert H. apply float_neq. vm_compute. discriminate.
  - vm_compute in H. apply Ok_inj in H.
    revert H. apply float_neq. vm_compute. discriminate.
Qed.

End ScheduleFacts.

(** *** Configuration *)

Module ConfigFacts.
Import Config Setup.

(** Includes that all load to mappings are merged one after the other,
    each over what was accumulated before. *)
Lemma apply_includes_maps (load : yaml -> result yaml)
    (update_pairs : gmap string yaml -> yaml -> result (gmap string yaml))
    (config : gmap string yaml) (includes : list yaml)
    (maps : list (gmap string yaml)) :
  Forall2 (fun include m => load include = Ok (YMap m)) includes maps ->
  apply_includes load update_pairs config includes
  = Ok (foldl (fun cfg m => m ∪ cfg) config maps).
Proof.
  intros H. revert config.
  induction H as [|include m includes maps Hload _ IH]; intros config.
  - done.
  - cbn. rewrite Hload. cbn. apply IH.
Qed.

(** A key of the base survives the merges (possibly with a new value). *)
Lemma merged_key_kept (config : gmap string yaml)
    (maps : list (gmap string yaml)) (k : string) :
  is_Some (config !! k) ->
  is_Some (foldl (fun cfg m => m ∪ cfg) config maps !! k).
Proof.
  revert config. induction maps as [|m maps IH]; intros config Hk; [done|].
  cbn. apply IH. rewrite lookup_union.
  destruct (m !! k), Hk as [v ->]; by eexists.
Qed.

(** The last include decides a key it has; otherwise the key is as the
    earlier includes and the base left it. *)
Lemma merged_lookup_last (config : gmap string yaml)
    (maps : list (gmap string yaml)) (m : gmap string yaml) (k : string) :
  foldl (fun cfg m => m ∪ cfg) config (maps ++ [m]) !! k
  = match m !! k with
    | Some v => Some v
    | None => foldl (fun cfg m => m ∪ cfg) config maps !! k
    end.
Proof.
  rewrite foldl_app. cbn. rewrite lookup_union.
  by destruct (m !! k), (foldl _ config maps !! k).
Qed.

(** When [includes] is a list of files that load to mappings, the merge
    returns the accumulated mapping without its [includes] key. *)
Lemma merge_includes_present (load : yaml -> result yaml)
    (update_pairs : gmap string yaml -> yaml -> result (gmap string yaml))
    (config : gmap string yaml) (includes : list yaml)
    (maps : list (gmap string yaml)) :
  config !! "includes" = Some (YSeq includes) ->
  Forall2 (fun include m => load include = Ok (YMap m)) includes maps ->
  merge_includes load update_pairs config
  = Ok (delete "includes" (foldl (fun cfg m => m ∪ cfg) config maps)).
Proof.
  intros Hinc Hload. unfold merge_includes. rewrite Hinc. cbn.
  rewrite (apply_includes_maps _ _ _ _ _ Hload). cbn.
  unfold dict_pop.
  destruct (merged_key_kept config maps "includes") as [v ->]; [|done].
  by eexists.
Qed.

(** C4, the failing path: on a base mapping without the [includes] key no
    include is read and the final [config.pop("includes")] raises
    [KeyError]. *)
Theorem merge_includes_absent_raises (load : yaml -> result yaml)
    (update_pairs : gmap string yaml -> yaml -> result (gmap string yaml))
    (config : gmap string yaml) :
  config !! "includes" = None ->
  merge_includes load update_pairs config = Raise (KeyError "'includes'").
Proof.
  intros Habs. unfold merge_includes. rewrite Habs. cbn.
  unfold dict_pop. by rewrite Habs.
Qed.

Lemma merge_includes_absent_raises_witness :
  merge_includes (fun _ => Ok YNull) sample_update_pairs
    {[ "task" := YStr "regression" ]}
  = Raise (KeyError "'includes'").
Proof.
  apply merge_includes_absent_raises. vm_compute. reflexivity.
Defined.

(** C9, as the code has it: an [includes] value that is not a list is
    raised as an [AttributeError] whose message has the type of the value;
    a metric name that is an unbound identifier is raised as a
    [NameError] whose message has the name; a dataset name that is none of
    the three known ones is raised as a [NotImplementedError] with an
    empty message. *)
Theorem config_error_messages :
  (forall (load : yaml -> result yaml)
    (update_pairs : gmap string yaml -> yaml -> result (gmap string yaml)) (config : gmap string yaml)
          (v : yaml),
     config !! "includes" = Some v -> (forall l, v <> YSeq l) ->
     exists msg,
       merge_includes load update_pairs config = Raise (AttributeError msg)
       /\ occurs_in (type_repr v) msg)
  /\ (forall (obj : Type)
             (eval_expr : gmap string obj -> string -> result obj)
             (scope : gmap string obj) (source : string),
        is_identifier source = true -> scope !! source = None ->
        exists msg,
          eval_metric eval_expr scope source = Raise (NameError msg)
          /\ occurs_in source msg)
  /\ (forall name : yaml,
        name <> YStr "ulissigroup_co" ->
        name <> YStr "xie_grossman_mat_proj" ->
        name <> YStr "qm9" ->
        select_dataset name = Raise (NotImplementedError "")).
Proof.
  split; [|split].
  - intros load update_pairs config v Hinc Hv. unfold merge_includes. rewrite Hinc.
    destruct v; cbn; try (eexists; split; [reflexivity|];
      by exists "Includes must be a list, ", " provided").
    by destruct (Hv l).
  - intros obj eval_expr scope source Hid Hun. unfold eval_metric.
    rewrite Hid, Hun. eexists. split; [reflexivity|].
    by exists "name '", "' is not defined".
  - intros name H1 H2 H3. unfold select_dataset.
    destruct name; try done.
    destruct (String.eqb_spec s "ulissigroup_co"); [congruence|].
    destruct (String.eqb_spec s "xie_grossman_mat_proj"); [congruence|].
    destruct (String.eqb_spec s "qm9"); [congruence|]. done.
Qed.

Lemma config_error_messages_witness :
  (exists msg,
     merge_includes (fun _ => Ok YNull) sample_update_pairs
    {[ "includes" := YStr "base.yml" ]}
     = Raise (AttributeError msg)
     /\ occurs_in "<class 'str'>" msg)
  /\ (exists msg,
        eval_metric (fun _ _ => Raise (OtherError "")) (∅ : gmap string nat)
          "accuracy"
        = Raise (NameError msg)
        /\ occurs_in "accuracy" msg)
  /\ select_dataset (YStr "mnist") = Raise (NotImplementedError "").
Proof.
  destruct config_error_messages as (Hinc & Hmetric & Hdata).
  split; [|split].
  - apply (Hinc _ _ _ (YStr "base.yml")); [vm_compute; reflexivity|].
    intros l. discriminate.
  - apply Hmetric; vm_compute; reflexivity.
  - apply Hdata; intros H; discriminate H.
Defined.

(** C9 as stated fails for the dataset name: the error raised for the
    unknown name [mnist] does not carry the name in its message. *)
Lemma unknown_dataset_message_lacks_name :
  ~ (exists e, select_dataset (YStr "mnist") = Raise e
               /\ occurs_in "mnist" (exn_message e)).
Proof.
  intros (e & He & pre & post & Hm).
  vm_compute in He. injection He as <-.
  destruct pre; discriminate Hm.
Qed.

End ConfigFacts.

(** *** Export of the test pass *)

Module TestExportFacts.
Import TestExport.

(** The batch loop leaves [test_cif_ids] as it was created. *)
Lemma collect_keeps_ids (batches : list batch) (acc : test_lists) :
  test_cif_ids (fold_left collect batches acc) = test_cif_ids acc.
Proof.
  revert acc. induction batches as [|data batches IH]; intros acc; [done|].
  cbn. by rewrite IH.
Qed.

(** The targets and predictions of all samples are collected, in order. *)
Lemma collect_targets_preds (batches : list batch) (acc : test_lists) :
  test_targets (fold_left collect batches acc)
  = test_targets acc ++ flat_map y batches
  /\ test_preds (fold_left collect batches acc)
     = test_preds acc ++ flat_map denorm_output batches.
Proof.
  revert acc. induction batches as [|data batches IH]; intros acc.
  - cbn. by rewrite !app_nil_r.
  - cbn. destruct (IH (collect acc data)) as [-> ->]. cbn.
    by rewrite <- !app_assoc.
Qed.

(** C3, what the code does: whatever the test pass collected, no row is
    written to [test_results.csv], because the rows are zipped with the
    identifier list that stays empty. *)
Theorem test_results_csv_empty (batches : list batch) :
  test_results_csv batches = [].
Proof.
  unfold test_results_csv. by rewrite collect_keeps_ids.
Qed.

(** One test sample with target 1 and prediction 1: a sample was collected
    and no row is written. *)
Lemma test_results_csv_one_sample :
  let batches := [ {| y := [1%Q]; denorm_output := [1%Q] |} ] in
  samples batches = 1 /\ length (test_results_csv batches) = 0.
Proof. done. Qed.

End TestExportFacts.

(** *** Epoch loop and checkpoint selection *)

Module LoopFacts.
Import Loop.

Lemma py_lt_iff (a b : Q) : py_lt a b = true <-> (a < b)%Q.
Proof. unfold py_lt, Qlt. apply Z.ltb_lt. Qed.


(** Python's two-argument [min] and [max] are the minimum and maximum of
    the rationals (with the same choice between equal arguments). *)
Lemma py_min_Qmin (a b : Q) : py_min a b = Qmin a b.
Proof.
  unfold py_min, py_lt, Qmin, GenericMinMax.gmin, Qcompare.
  rewrite (Z.compare_antisym (Qnum b * QDen a) (Qnum a * QDen b)).
  unfold Z.ltb. by destruct (Qnum b * QDen a ?= Qnum a * QDen b)%Z.
Qed.

Lemma py_max_Qmax (a b : Q) : py_max a b = Qmax a b.
Proof.
  unfold py_max, py_lt, Qmax, GenericMinMax.gmax, Qcompare.
  unfold Z.ltb. by destruct (Qnum a * QDen b ?= Qnum b * QDen a)%Z.
Qed.

Section Facts.

Context {params opt_state norm_state config_t : Type}.
Local Abbreviation run := (Loop.run params opt_state norm_state config_t).
Local Abbreviation write :=
  (Loop.write params opt_state norm_state config_t).
Local Abbreviation pyval :=
  (Loop.pyval params opt_state norm_state config_t).
Implicit Types (r : run) (e n : nat).

(** The loop after [n] epochs, told epoch by epoch. *)
Lemma run_epochs_unfold r n :
  run_epochs r n
  = {| best_mae_error := best_before r n;
       writes := flat_map (fun e => save_checkpoint (record_of r e)
                                      (is_best_at r e)) (seq 0 n) |}.
Proof.
  unfold run_epochs. induction n as [|n IH]; [done|].
  rewrite seq_S, fold_left_app, IH. cbn.
  unfold epoch_body. cbn.
  rewrite flat_map_app. cbn. rewrite app_nil_r.
  unfold record_of, is_best_at. cbn.
  by destruct (select_best _ _ _).
Qed.

Lemma is_best_at_improves r e :
  is_best_at r e = true <-> improves r e.
Proof.
  unfold is_best_at, improves, select_best.
  destruct (String.eqb _ _); cbn; apply py_lt_iff.
Qed.


Lemma elem_of_writes r n (w : write) :
  w ∈ writes (run_epochs r n)
  <-> exists e, e < n
        /\ (w = WriteCheckpoint (record_of r e)
            \/ (w = WriteBest (record_of r e) /\ is_best_at r e = true)).
Proof.
  rewrite run_epochs_unfold. cbn. rewrite list_elem_of_In, in_flat_map.
  split.
  - intros (e & He & Hw). apply in_seq in He. exists e. split; [lia|].
    unfold save_checkpoint in Hw.
    destruct (is_best_at r e); cbn in Hw.
    + destruct Hw as [<-|[<-|[]]]; [by left|by right].
    + destruct Hw as [<-|[]]. by left.
  - intros (e & He & Hw). exists e. split; [apply in_seq; lia|].
    unfold save_checkpoint.
    destruct Hw as [->|[-> ->]]; cbn; auto.
Qed.

(** Without a best copy among the writes there is no best file. *)
Lemma best_file_none (ws : list write) :
  (forall state, WriteBest state ∉ ws) -> best_file ws = None.
Proof.
  induction ws as [|w ws IH]; intros H; [done|].
  cbn. rewrite IH.
  - destruct w; [done|]. exfalso. apply (H state). by left.
  - intros state Hin. apply (H state). by right.
Qed.





(** In a regression run best-so-far is a lower bound of the initial value
    and of every metric seen. *)
Lemma best_before_lower_bound r n :
  task_type r = "regression" ->
  (best_before r n <= initial_best_mae_error)%Q
  /\ (forall e, e < n -> (best_before r n <= val_mae r e)%Q).
Proof.
  intros Hty. apply String.eqb_eq in Hty.
  induction n as [|n [IH0 IH]].
  - split; [apply Qle_refl|]. intros e He. lia.
  - change (best_before r (S n))
      with (snd (select_best (task_type r) (val_mae r n) (best_before r n))).
    unfold select_best. rewrite Hty. unfold snd. rewrite py_min_Qmin.
    split.
    + eapply Qle_trans; [apply Q.le_min_r|done].
    + intros e He. destruct (decide (e = n)) as [->|Hne].
      * apply Q.le_min_l.
      * eapply Qle_trans; [apply Q.le_min_r|]. apply IH. lia.
Qed.

(** C6: for a regression task the flag [is_best] holds exactly when the
    metric is strictly smaller than best-so-far, and the new best-so-far
    is the minimum of the two; for every other task type the flag holds
    exactly when the metric is strictly larger, and the new best-so-far is
    the maximum. *)
Theorem select_best_direction (task : string) (mae_error best : Q) :
  (task = "regression" ->
   (fst (select_best task mae_error best) = true <-> (mae_error < best)%Q)
   /\ snd (select_best task mae_error best) = Qmin mae_error best)
  /\ (task <> "regression" ->
      (fst (select_best task mae_error best) = true
       <-> (best < mae_error)%Q)
      /\ snd (select_best task mae_error best) = Qmax mae_error best).
Proof.
  unfold select_best. split; intros Hty.
  - apply String.eqb_eq in Hty. rewrite Hty. cbn.
    split; [apply py_lt_iff|apply py_min_Qmin].
  - apply String.eqb_neq in Hty. rewrite Hty. cbn.
    split; [apply py_lt_iff|apply py_max_Qmax].
Qed.





End Facts.

Lemma select_best_direction_witness :
  ((fst (select_best "regression" (5 # 1) (7 # 1)) = true
    <-> (5 # 1 < 7 # 1)%Q)
   /\ snd (select_best "regression" (5 # 1) (7 # 1))
      = Qmin (5 # 1) (7 # 1))
  /\ ((fst (select_best "classification" (5 # 1) (7 # 1)) = true
       <-> (7 # 1 < 5 # 1)%Q)
      /\ snd (select_best "classification" (5 # 1) (7 # 1))
         = Qmax (5 # 1) (7 # 1)).
Proof.
  split.
  - apply (select_best_direction "regression"). reflexivity.
  - apply (select_best_direction "classification"). discriminate.
Defined.



End LoopFacts.

(** *** Configuration merge: further properties *)

Module MergeFacts.
Import Config Setup.

(** The include loop reads [load] only at the listed includes. *)
Lemma apply_includes_ext (load load' : yaml -> result yaml)
    (update_pairs : gmap string yaml -> yaml -> result (gmap string yaml))
    (config : gmap string yaml) (includes : list yaml) :
  (forall include, include ∈ includes -> load include = load' include) ->
  apply_includes load update_pairs config includes = apply_includes load' update_pairs config includes.
Proof.
  revert config. induction includes as [|include rest IH]; intros config H.
  - done.
  - cbn. rewrite <- (H include) by (by left).
    destruct (load include) as [v|e]; [|done]. cbn.
    destruct (dict_update update_pairs config v) as [config'|e]; [|done]. cbn.
    apply IH. intros inc Hin. apply H. by right.
Qed.

(** The loop stops at the first include that does not load. *)
Lemma apply_includes_load_error (load : yaml -> result yaml)
    (update_pairs : gmap string yaml -> yaml -> result (gmap string yaml))
    (config : gmap string yaml) (pre post : list yaml)
    (maps : list (gmap string yaml)) (include : yaml) (e : exn) :
  Forall2 (fun inc m => load inc = Ok (YMap m)) pre maps ->
  load include = Raise e ->
  apply_includes load update_pairs config (pre ++ include :: post) = Raise e.
Proof.
  intros Hpre Hinc. revert config.
  induction Hpre as [|inc m pre maps Hload _ IH]; intros config.
  - cbn. by rewrite Hinc.
  - cbn. rewrite Hload. cbn. apply IH.
Qed.

(** The loop stops at the first include that loads to [None]. *)
Lemma apply_includes_empty_file (load : yaml -> result yaml)
    (update_pairs : gmap string yaml -> yaml -> result (gmap string yaml))
    (config : gmap string yaml) (pre post : list yaml)
    (maps : list (gmap string yaml)) (include : yaml) :
  Forall2 (fun inc m => load inc = Ok (YMap m)) pre maps ->
  load include = Ok YNull ->
  apply_includes load update_pairs config (pre ++ include :: post)
  = Raise (TypeError "'NoneType' object is not iterable").
Proof.
  intros Hpre Hinc. revert config.
  induction Hpre as [|inc m pre maps Hload _ IH]; intros config.
  - cbn. by rewrite Hinc.
  - cbn. rewrite Hload. cbn. apply IH.
Qed.

(** A key that no include has keeps the value of the base. *)
Lemma merged_lookup_untouched (config : gmap string yaml)
    (maps : list (gmap string yaml)) (k : string) :
  Forall (fun m => m !! k = None) maps ->
  foldl (fun cfg m => m ∪ cfg) config maps !! k = config !! k.
Proof.
  intros H. revert config.
  induction H as [|m maps Hm _ IH]; intros config; [done|].
  cbn. rewrite IH, lookup_union, Hm. by destruct (config !! k).
Qed.

(** A successful merge started from a mapping that has the [includes]
    key with a list, and its result has no [includes] key. *)
Theorem merge_includes_ok_inv (load : yaml -> result yaml)
    (update_pairs : gmap string yaml -> yaml -> result (gmap string yaml))
    (config c : gmap string yaml) :
  merge_includes load update_pairs config = Ok c ->
  (exists includes, config !! "includes" = Some (YSeq includes))
  /\ c !! "includes" = None.
Proof.
  unfold merge_includes. intros H.
  destruct (config !! "includes") as [v|] eqn:Hinc; cbn in H.
  - destruct v; try discriminate H.
    split; [by eexists|].
    destruct (apply_includes load update_pairs config l) as [config'|e]; cbn in H;
      [|discriminate H].
    unfold dict_pop in H.
    destruct (config' !! "includes"); [|discriminate H].
    injection H as <-. apply lookup_delete_eq.
  - unfold dict_pop in H. by rewrite Hinc in H.
Qed.

Lemma merge_includes_ok_inv_witness :
  (exists includes, sample_base !! "includes" = Some (YSeq includes))
  /\ (delete "includes" (sample_b ∪ (sample_a ∪ sample_base)))
       !! "includes" = None.
Proof.
  apply (merge_includes_ok_inv sample_files sample_update_pairs).
  vm_compute. reflexivity.
Defined.

(** With includes that load to mappings the merge returns a mapping in
    which a key other than [includes] has the value of the last include
    that has it, and the value of the base when no include has it. *)
Theorem merge_includes_lookup (load : yaml -> result yaml)
    (update_pairs : gmap string yaml -> yaml -> result (gmap string yaml))
    (config : gmap string yaml) (includes : list yaml)
    (maps : list (gmap string yaml)) :
  config !! "includes" = Some (YSeq includes) ->
  Forall2 (fun include m => load include = Ok (YMap m)) includes maps ->
  exists c,
    merge_includes load update_pairs config = Ok c
    /\ (forall k, k <> "includes" ->
        Forall (fun m => m !! k = None) maps -> c !! k = config !! k)
    /\ (forall k pre m post v, k <> "includes" ->
        maps = pre ++ m :: post -> m !! k = Some v ->
        Forall (fun m' => m' !! k = None) post -> c !! k = Some v).
Proof.
  intros Hinc Hload. eexists.
  split; [exact (ConfigFacts.merge_includes_present _ _ _ _ _ Hinc Hload)|].
  split.
  - intros k Hk Hnone. rewrite lookup_delete_ne by done.
    by apply merged_lookup_untouched.
  - intros k pre m post v Hk -> Hm Hpost.
    rewrite lookup_delete_ne by done.
    rewrite foldl_app. cbn. rewrite merged_lookup_untouched by done.
    by rewrite lookup_union, Hm; destruct (foldl _ config pre !! k).
Qed.

Lemma merge_includes_lookup_witness :
  exists c,
    merge_includes sample_files sample_update_pairs sample_base = Ok c
    /\ c !! "model" = Some (YStr "base")
    /\ c !! "task" = Some (YStr "b")
    /\ c !! "optim" = Some (YStr "a").
Proof.
  destruct (merge_includes_lookup sample_files sample_update_pairs
              sample_base
              [YStr "a.yml"; YStr "b.yml"] [sample_a; sample_b])
    as (c & Hc & Hbase & Hlast).
  - vm_compute. reflexivity.
  - repeat constructor.
  - exists c. split; [exact Hc|]. split; [|split].
    + rewrite Hbase; [vm_compute; reflexivity|discriminate|].
      repeat constructor.
    + apply (Hlast "task" [sample_a] sample_b []); try done.
    + apply (Hlast "optim" [] sample_a [sample_b]); try done.
      repeat constructor.
Defined.

(** The merge reads only the files listed in the base mapping: two file
    systems that agree on them give the same outcome, so an [includes]
    key inside an included file is never followed. *)
Theorem merge_includes_reads_listed (load load' : yaml -> result yaml)
    (update_pairs : gmap string yaml -> yaml -> result (gmap string yaml))
    (config : gmap string yaml) (includes : list yaml) :
  config !! "includes" = Some (YSeq includes) ->
  (forall include, include ∈ includes -> load include = load' include) ->
  merge_includes load update_pairs config = merge_includes load' update_pairs config.
Proof.
  intros Hinc Hagree. unfold merge_includes. rewrite Hinc. cbn.
  by rewrite (apply_includes_ext load load' update_pairs config includes Hagree).
Qed.

Lemma merge_includes_reads_listed_witness :
  merge_includes sample_files sample_update_pairs sample_base
  = merge_includes sample_files_more sample_update_pairs sample_base.
Proof.
  apply (merge_includes_reads_listed _ _ _ sample_base
           [YStr "a.yml"; YStr "b.yml"]).
  - vm_compute. reflexivity.
  - intros include Hin.
    apply elem_of_cons in Hin as [->|Hin]; [reflexivity|].
    apply list_elem_of_singleton in Hin as ->. reflexivity.
Defined.

(** An include that cannot be loaded, or that is an empty file, stops the
    merge: after includes that loaded to mappings, the exception of the
    failing load leaves the program, and an empty file ([None]) is the
    [TypeError] of [dict.update]; the includes after it are not read. *)
Theorem merge_includes_bad_include (load : yaml -> result yaml)
    (update_pairs : gmap string yaml -> yaml -> result (gmap string yaml))
    (config : gmap string yaml) (pre post : list yaml)
    (maps : list (gmap string yaml)) (include : yaml) :
  config !! "includes" = Some (YSeq (pre ++ include :: post)) ->
  Forall2 (fun inc m => load inc = Ok (YMap m)) pre maps ->
  (forall e, load include = Raise e -> merge_includes load update_pairs config = Raise e)
  /\ (load include = Ok YNull ->
      merge_includes load update_pairs config
      = Raise (TypeError "'NoneType' object is not iterable")).
Proof.
  intros Hinc Hpre. unfold merge_includes. rewrite Hinc. cbn. split.
  - intros e He.
    by rewrite (apply_includes_load_error _ _ _ _ _ _ _ _ Hpre He).
  - intros He.
    by rewrite (apply_includes_empty_file _ _ _ _ _ _ _ Hpre He).
Qed.

Lemma merge_includes_bad_include_witness :
  merge_includes sample_files sample_update_pairs sample_base_missing
  = Raise (FileNotFoundError "No such file or directory")
  /\ merge_includes sample_files sample_update_pairs sample_base_empty
     = Raise (TypeError "'NoneType' object is not iterable").
Proof.
  split.
  - eapply (merge_includes_bad_include sample_files sample_update_pairs
              sample_base_missing
              [YStr "a.yml"] [YStr "b.yml"] [sample_a]
              (YStr "missing.yml")).
    + vm_compute. reflexivity.
    + repeat constructor.
    + reflexivity.
  - eapply (merge_includes_bad_include sample_files sample_update_pairs
              sample_base_empty
              [YStr "a.yml"] [YStr "b.yml"] [sample_a]
              (YStr "empty.yml")).
    + vm_compute. reflexivity.
    + repeat constructor.
    + reflexivity.
Defined.

End MergeFacts.

(** *** Run name *)

Module SetupFacts.
Import Setup.

Lemma append_empty_r (s : string) : s +:+ "" = s.
Proof.
  induction s as [|c s IH]; [done|].
  change (String c (s +:+ "") = String c s). by rewrite IH.
Qed.

(** Equal concatenations with heads of the same length have equal heads
    and equal tails. *)
Lemma append_inj_length (a a' b b' : string) :
  String.length a = String.length a' ->
  a +:+ b = a' +:+ b' -> a = a' /\ b = b'.
Proof.
  revert a'. induction a as [|c a IH]; intros [|c' a'] Hlen Heq;
    try discriminate Hlen.
  - done.
  - cbn in Hlen, Heq. injection Hlen as Hlen. injection Heq as -> Heq.
    destruct (IH a' Hlen Heq) as [-> ->]. done.
Qed.

(** Two runs whose timestamps have the same length, as the fixed format
    gives them, have the same run name only if they have the same
    timestamp and the same identifier. *)
Theorem run_name_inj (timestamp timestamp' identifier identifier' : string) :
  String.length timestamp = String.length timestamp' ->
  run_name timestamp identifier = run_name timestamp' identifier' ->
  timestamp = timestamp' /\ identifier = identifier'.
Proof.
  intros Hlen. unfold run_name.
  destruct (decide (identifier = "")) as [->|Hid],
           (decide (identifier' = "")) as [->|Hid']; intros Heq.
  - done.
  - rewrite <- (append_empty_r timestamp) in Heq.
    destruct (append_inj_length _ _ _ _ Hlen Heq) as [_ H].
    discriminate H.
  - rewrite <- (append_empty_r timestamp') in Heq.
    destruct (append_inj_length _ _ _ _ Hlen Heq) as [_ H].
    discriminate H.
  - destruct (append_inj_length _ _ _ _ Hlen Heq) as [-> H].
    split; [done|]. by injection H.
Qed.

Lemma run_name_inj_witness :
  "2020-01-02-03-04-05" = "2020-01-02-03-04-05" /\ "a" = "a".
Proof.
  apply run_name_inj; reflexivity.
Defined.

End SetupFacts.

(** *** Slices and splits: further properties *)

Module SliceFacts.
Import Split SplitFacts.

Lemma slice_bound_range (len i : Z) :
  (0 <= len)%Z -> (0 <= slice_bound len i <= len)%Z.
Proof.
  intros H. unfold slice_bound. destruct (Z.ltb_spec i 0); lia.
Qed.

Lemma slice_bound_negative (len i : Z) :
  (i < 0)%Z -> slice_bound len i = Z.max 0 (i + len).
Proof.
  intros H. unfold slice_bound. destruct (Z.ltb_spec i 0); [done|lia].
Qed.

(** A slice with bounds that are not negative is an index range, also
    when the bounds pass the end of the list. *)
Lemma slice_nonneg {A} (l : list A) (a b : Z) :
  (0 <= a <= b)%Z ->
  slice l (Some a) (Some b) = index_range l (Z.to_nat a) (Z.to_nat b).
Proof.
  intros Hab. unfold slice, index_range, slice_bound.
  destruct (Z.ltb_spec a 0), (Z.ltb_spec b 0); try lia.
  destruct (decide (a <= Z.of_nat (length l))%Z) as [Ha|Ha].
  - rewrite (Z.min_l a) by lia.
    destruct (decide (b <= Z.of_nat (length l))%Z) as [Hb|Hb].
    + rewrite (Z.min_l b) by lia. f_equal. lia.
    + rewrite (Z.min_r b) by lia.
      rewrite !take_ge; [done| |]; rewrite length_drop; lia.
  - rewrite (Z.min_r a), (Z.min_r b) by lia.
    rewrite !drop_ge by lia. by rewrite !take_nil.
Qed.

Lemma slice_prefix_nonneg {A} (l : list A) (b : Z) :
  (0 <= b)%Z -> slice l None (Some b) = index_range l 0 (Z.to_nat b).
Proof.
  intros Hb. unfold slice, index_range, slice_bound.
  destruct (Z.ltb_spec b 0); [lia|].
  change (Z.to_nat 0) with 0. rewrite drop_0.
  destruct (decide (b <= Z.of_nat (length l))%Z) as [Hle|Hgt].
  - rewrite (Z.min_l b) by lia. f_equal. lia.
  - rewrite (Z.min_r b) by lia. rewrite !take_ge; [done| |]; lia.
Qed.

(** What a successful split with sizes that are not negative returns. *)
Lemma split_ok_ranges {A} (dataset train val test : list A)
    (tr_sz va_sz te_sz : Z) :
  (0 <= tr_sz)%Z -> (0 <= va_sz)%Z -> (0 <= te_sz)%Z ->
  split dataset tr_sz va_sz te_sz = Ok (train, val, test) ->
  (tr_sz + va_sz + te_sz < Z.of_nat (length dataset))%Z
  /\ train ++ val ++ test
     = take (Z.to_nat (tr_sz + va_sz + te_sz)) dataset.
Proof.
  intros Htr Hva Hte. unfold split.
  destruct (check_sizes _ _ _ _) as [[]|e] eqn:Hck; cbn; [|done].
  intros H. injection H as <- <- <-.
  split; [by apply check_sizes_ok_iff|].
  rewrite slice_prefix_nonneg, !slice_nonneg by lia.
  rewrite !index_range_app by lia.
  unfold index_range. rewrite drop_0. f_equal. lia.
Qed.

(** Every slice is a sublist of the list it is taken from, whatever the
    bounds: out-of-range and negative bounds are clamped, never an
    error. *)
Theorem slice_sublist {A} (l : list A) (start stop : option Z) :
  slice l start stop `sublist_of` l
  /\ length (slice l start stop) <= length l.
Proof.
  assert (Hsub : slice l start stop `sublist_of` l).
  { unfold slice.
    transitivity (drop (Z.to_nat match start with
                                 | Some i => slice_bound (Z.of_nat (length l)) i
                                 | None => 0%Z
                                 end) l);
      [apply sublist_take|apply sublist_drop]. }
  split; [done|]. by apply sublist_length.
Qed.

(** Slices at bounds [0 <= a <= b <= c] lie side by side: together they
    are the first [c] elements, also when the list is shorter than the
    bounds. *)
Theorem slices_adjacent {A} (l : list A) (a b c : Z) :
  (0 <= a)%Z -> (a <= b)%Z -> (b <= c)%Z ->
  slice l None (Some a) ++ slice l (Some a) (Some b)
    ++ slice l (Some b) (Some c)
  = take (Z.to_nat c) l.
Proof.
  intros Ha Hb Hc.
  rewrite slice_prefix_nonneg, !slice_nonneg by lia.
  rewrite !index_range_app by lia.
  unfold index_range. rewrite drop_0. f_equal. lia.
Qed.

Lemma slices_adjacent_witness :
  slice [1; 2; 3; 4; 5] None (Some 2%Z)
    ++ slice [1; 2; 3; 4; 5] (Some 2%Z) (Some 4%Z)
    ++ slice [1; 2; 3; 4; 5] (Some 4%Z) (Some 9%Z)
  = take (Z.to_nat 9) [1; 2; 3; 4; 5].
Proof.
  apply slices_adjacent; lia.
Defined.

(** A split that passes the assertion with sizes that are not negative
    never uses the whole dataset: the three splits together are shorter
    than the dataset, and a duplicate-free dataset has a sample that is
    in none of them. *)
Theorem split_leaves_sample {A} (dataset train val test : list A)
    (tr_sz va_sz te_sz : Z) :
  (0 <= tr_sz)%Z -> (0 <= va_sz)%Z -> (0 <= te_sz)%Z ->
  split dataset tr_sz va_sz te_sz = Ok (train, val, test) ->
  length train + length val + length test < length dataset
  /\ (NoDup dataset ->
      exists x, x ∈ dataset /\ (x ∉ train) /\ (x ∉ val) /\ (x ∉ test)).
Proof.
  intros Htr Hva Hte Hsplit.
  destruct (split_ok_ranges _ _ _ _ _ _ _ Htr Hva Hte Hsplit)
    as [Hlt Happ].
  set (n := Z.to_nat (tr_sz + va_sz + te_sz)) in *.
  assert (Hn : n < length dataset) by lia.
  split.
  - assert (Hall : length (train ++ val ++ test) = n)
      by (rewrite Happ, length_take; lia).
    rewrite !length_app in Hall. lia.
  - intros Hnd.
    destruct (lookup_lt_is_Some_2 dataset n Hn) as [x Hx].
    exists x. split; [by eapply list_elem_of_lookup_2|].
    assert (Hout : x ∉ train ++ val ++ test).
    { rewrite Happ. rewrite <- (take_drop n dataset) in Hnd.
      apply NoDup_app in Hnd as (_ & Hdisj & _).
      intros Hin. apply (Hdisj x Hin).
      apply list_elem_of_lookup. exists 0.
      by rewrite lookup_drop, Nat.add_0_r. }
    rewrite !elem_of_app in Hout. tauto.
Qed.

Lemma split_leaves_sample_witness :
  length [1; 2] + length [3] + length [4] < length [1; 2; 3; 4; 5]
  /\ (NoDup [1; 2; 3; 4; 5] ->
      exists x, x ∈ [1; 2; 3; 4; 5]
                /\ (x ∉ [1; 2]) /\ (x ∉ [3]) /\ (x ∉ [4])).
Proof.
  apply (split_leaves_sample [1; 2; 3; 4; 5] [1; 2] [3] [4] 2 1 1);
    try lia.
  vm_compute. reflexivity.
Defined.

(** Sizes are not checked for their sign: with the sizes -1, -1 and 1
    the assertion passes on every dataset of at least two samples, and
    the last sample but one is both in the training and in the test
    split. *)
Theorem split_negative_sizes_overlap {A} (dataset : list A) :
  2 <= length dataset ->
  exists train val test x,
    split dataset (-1) (-1) 1 = Ok (train, val, test)
    /\ x ∈ train /\ x ∈ test.
Proof.
  intros Hlen.
  destruct (lookup_lt_is_Some_2 dataset (length dataset - 2)) as [x Hx];
    [lia|].
  exists (slice dataset None (Some (-1)%Z)),
    (slice dataset (Some (-1)%Z) (Some (-1 + -1)%Z)),
    (slice dataset (Some (-1 + -1)%Z) (Some (-1 + -1 + 1)%Z)), x.
  split; [|split].
  - unfold split.
    assert (Hck : check_sizes (Z.of_nat (length dataset)) (-1) (-1) 1
                  = Ok tt) by (apply check_sizes_ok_iff; lia).
    by rewrite Hck.
  - apply list_elem_of_lookup. exists (length dataset - 2).
    unfold slice. rewrite slice_bound_negative by lia.
    rewrite lookup_take_lt by lia.
    by rewrite lookup_drop.
  - apply list_elem_of_lookup. exists 0.
    unfold slice. rewrite !slice_bound_negative by lia.
    rewrite lookup_take_lt by lia.
    rewrite lookup_drop.
    replace (Z.to_nat (Z.max 0 (-1 + -1 + Z.of_nat (length dataset))) + 0)
      with (length dataset - 2) by lia.
    done.
Qed.

Lemma split_negative_sizes_overlap_witness :
  exists train val test x,
    split [1; 2; 3] (-1) (-1) 1 = Ok (train, val, test)
    /\ x ∈ train /\ x ∈ test.
Proof.
  apply split_negative_sizes_overlap. simpl. lia.
Defined.

End SliceFacts.

(** *** Learning-rate schedule: further properties *)

Module ScheduleShape.
Import Schedule ScheduleFacts.

(** The binary search stays between its bounds, on any list. *)
Lemma bisect_loop_bounds (a : list Z) (x : Z) (lo hi : nat) :
  lo <= hi -> lo <= bisect_loop a x lo hi <= hi.
Proof.
  funelim (bisect_loop a x lo hi); intros Hb.
  - lia.
  - match goal with
    | Hlt : lo < hi |- _ => pose proof (bisect_mid_bounds lo hi Hlt) as Hm
    end.
    match goal with
    | IH : _ <= _ -> _ |- _ => specialize (IH ltac:(lia))
    end.
    lia.
  - match goal with
    | Hlt : lo < hi |- _ => pose proof (bisect_mid_bounds lo hi Hlt) as Hm
    end.
    match goal with
    | IH : _ <= _ -> _ |- _ => specialize (IH ltac:(lia))
    end.
    lia.
Qed.

(** When no entry is larger than [x] the search ends at [hi]. *)
Lemma bisect_loop_all_le (a : list Z) (x : Z) (lo hi : nat) :
  Forall (fun m => (m <= x)%Z) a -> lo <= hi <= length a ->
  bisect_loop a x lo hi = hi.
Proof.
  intros Hall. funelim (bisect_loop a x lo hi); intros Hb.
  - lia.
  - match goal with
    | Hlt : lo < hi |- _ => pose proof (bisect_mid_bounds lo hi Hlt) as Hm
    end.
    destruct (lookup_lt_is_Some_2 a ((lo + hi) / 2)) as [v Hv]; [lia|].
    pose proof (nth_lookup_Some _ _ 0%Z _ Hv) as Hn.
    pose proof (Forall_lookup_1 _ _ _ _ Hall Hv) as Hle. cbn in Hle. lia.
  - match goal with
    | Hlt : lo < hi |- _ => pose proof (bisect_mid_bounds lo hi Hlt) as Hm
    end.
    match goal with
    | IH : Forall _ _ -> _ |- _ => apply IH; [done|lia]
    end.
Qed.

(** When every entry is larger than [x] the search ends at [lo]. *)
Lemma bisect_loop_all_gt (a : list Z) (x : Z) (lo hi : nat) :
  Forall (fun m => (x < m)%Z) a -> lo <= hi <= length a ->
  bisect_loop a x lo hi = lo.
Proof.
  intros Hall. funelim (bisect_loop a x lo hi); intros Hb.
  - done.
  - match goal with
    | Hlt : lo < hi |- _ => pose proof (bisect_mid_bounds lo hi Hlt) as Hm
    end.
    match goal with
    | IH : Forall _ _ -> _ |- _ => apply IH; [done|lia]
    end.
  - match goal with
    | Hlt : lo < hi |- _ => pose proof (bisect_mid_bounds lo hi Hlt) as Hm
    end.
    destruct (lookup_lt_is_Some_2 a ((lo + hi) / 2)) as [v Hv]; [lia|].
    pose proof (nth_lookup_Some _ _ 0%Z _ Hv) as Hn.
    pose proof (Forall_lookup_1 _ _ _ _ Hall Hv) as Hle. cbn in Hle. lia.
Qed.

(** A later epoch has passed at least as many milestones. *)
Lemma milestones_upto_mono (ms : list Z) (e e' : Z) :
  (e <= e')%Z -> milestones_upto ms e <= milestones_upto ms e'.
Proof.
  intros He. unfold milestones_upto.
  induction ms as [|m ms IH]; [done|].
  rewrite !filter_cons. repeat case_decide; cbn; lia.
Qed.

(** With [warmup_epochs] zero the schedule raises at epoch 0, the epoch
    the scheduler asks for first, and at every epoch that is not positive
    and converts to a float: the warmup branch divides by [float(0)]. *)
Theorem lr_lambda_fun_raises (pow : float -> nat -> result float)
    (cfg : optim) (e : Z) (fe : float) :
  warmup_epochs cfg = 0%Z -> (e <= 0)%Z -> float_of_int e = Ok fe ->
  exists msg, lr_lambda_fun pow cfg e = Raise (ZeroDivisionError msg).
Proof.
  intros Hw He Hfe.
  rewrite (lr_in_warmup pow cfg e 0%float fe); [by eexists|lia| |done].
  by rewrite Hw.
Qed.

Lemma lr_lambda_fun_raises_witness :
  exists msg,
    lr_lambda_fun pow_rounded
      {| warmup_epochs := 0; warmup_factor := f0_2;
         lr_milestones := [10; 20]%Z; lr_gamma := f0_1 |} 0
    = Raise (ZeroDivisionError msg).
Proof.
  apply (lr_lambda_fun_raises _ _ 0%Z 0%float); [reflexivity|lia|].
  vm_compute. reflexivity.
Defined.

(** Past the warmup the multiplier is [pow(lr_gamma, k)] for some [k] that
    is at most the number of milestones, whatever the order of the
    milestones. *)
Theorem lr_decay_exponent_bounded (pow : float -> nat -> result float)
    (cfg : optim) (e : Z) :
  (warmup_epochs cfg < e)%Z ->
  exists k, k <= length (lr_milestones cfg)
            /\ lr_lambda_fun pow cfg e = pow (lr_gamma cfg) k.
Proof.
  intros He. exists (bisect (lr_milestones cfg) e).
  split; [|by apply lr_past_warmup].
  unfold bisect.
  pose proof (bisect_loop_bounds (lr_milestones cfg) e 0
                (length (lr_milestones cfg))). lia.
Qed.

Lemma lr_decay_exponent_bounded_witness :
  exists k, k <= 3
            /\ lr_lambda_fun pow_rounded
                 {| warmup_epochs := 5; warmup_factor := f0_2;
                    lr_milestones := [30; 10; 20]%Z; lr_gamma := f0_1 |}
                 15
               = pow_rounded f0_1 k.
Proof.
  apply (lr_decay_exponent_bounded pow_rounded
           {| warmup_epochs := 5; warmup_factor := f0_2;
              lr_milestones := [30; 10; 20]%Z; lr_gamma := f0_1 |} 15).
  simpl. lia.
Defined.

(** Past the warmup and before every milestone the multiplier is
    [pow(lr_gamma, 0)]; past the warmup and from the last milestone on it
    is [pow(lr_gamma, n)] for [n] the number of milestones.  Neither needs
    the milestones in order. *)
Theorem lr_outside_milestones (pow : float -> nat -> result float)
    (cfg : optim) (e : Z) :
  (warmup_epochs cfg < e)%Z ->
  (Forall (fun m => (e < m)%Z) (lr_milestones cfg) ->
   lr_lambda_fun pow cfg e = pow (lr_gamma cfg) 0)
  /\ (Forall (fun m => (m <= e)%Z) (lr_milestones cfg) ->
      lr_lambda_fun pow cfg e
      = pow (lr_gamma cfg) (length (lr_milestones cfg))).
Proof.
  intros He. rewrite (lr_past_warmup pow cfg e He). unfold bisect. split.
  - intros Hall. by rewrite bisect_loop_all_gt by (done || lia).
  - intros Hall. by rewrite bisect_loop_all_le by (done || lia).
Qed.

Lemma lr_outside_milestones_witness :
  lr_lambda_fun pow_rounded sample_optim 7 = pow_rounded f0_1 0
  /\ lr_lambda_fun pow_rounded sample_optim 20 = pow_rounded f0_1 2.
Proof.
  split.
  - apply (lr_outside_milestones pow_rounded sample_optim 7);
      [simpl; lia|].
    repeat constructor.
  - apply (lr_outside_milestones pow_rounded sample_optim 20);
      [simpl; lia|].
    repeat constructor; lia.
Defined.

(** Past the warmup, on ascending milestones, the exponent of the decay
    never decreases from an epoch to a later one: the multipliers of two
    such epochs are [pow(lr_gamma, k)] and [pow(lr_gamma, k')] with
    [k <= k']. *)
Theorem lr_decay_exponent_monotone (pow : float -> nat -> result float)
    (cfg : optim) (e e' : Z) :
  StronglySorted Z.le (lr_milestones cfg) ->
  (warmup_epochs cfg < e)%Z -> (e <= e')%Z ->
  exists k k',
    k <= k'
    /\ lr_lambda_fun pow cfg e = pow (lr_gamma cfg) k
    /\ lr_lambda_fun pow cfg e' = pow (lr_gamma cfg) k'.
Proof.
  intros Hs He Hee.
  exists (milestones_upto (lr_milestones cfg) e),
    (milestones_upto (lr_milestones cfg) e').
  split; [by apply milestones_upto_mono|].
  split; apply lr_decay; (done || lia).
Qed.

Lemma lr_decay_exponent_monotone_witness :
  exists k k',
    k <= k'
    /\ lr_lambda_fun pow_rounded sample_optim 9 = pow_rounded f0_1 k
    /\ lr_lambda_fun pow_rounded sample_optim 10 = pow_rounded f0_1 k'.
Proof.
  apply (lr_decay_exponent_monotone pow_rounded sample_optim 9 10).
  - exact sample_milestones_ascending.
  - simpl. lia.
  - lia.
Defined.

End ScheduleShape.

(** *** Best-so-far and the best checkpoint: further properties *)

Module BestFacts.
Import Loop LoopFacts.

Section Facts.

Context {params opt_state norm_state config_t : Type}.
Local Abbreviation run := (Loop.run params opt_state norm_state config_t).
Local Abbreviation write :=
  (Loop.write params opt_state norm_state config_t).
Implicit Types (r : run) (e n : nat).

Lemma best_before_succ r e :
  best_before r (S e)
  = snd (select_best (task_type r) (val_mae r e) (best_before r e)).
Proof. done. Qed.

(** Best-so-far is always the initial value or one of the metrics seen. *)
Lemma best_before_attained r n :
  best_before r n = initial_best_mae_error
  \/ exists e, e < n /\ best_before r n = val_mae r e.
Proof.
  induction n as [|n IH]; [by left|].
  rewrite best_before_succ. unfold select_best, py_min, py_max.
  assert (Hold : best_before r n = initial_best_mae_error
                 \/ exists e, e < S n /\ best_before r n = val_mae r e).
  { destruct IH as [IH|(e & He & IH)]; [by left|].
    right. exists e. split; [lia|done]. }
  assert (Hnew : exists e, e < S n /\ val_mae r n = val_mae r e)
    by (exists n; split; [lia|done]).
  destruct (String.eqb _ _); cbn; destruct (py_lt _ _); auto.
Qed.

(** In a run that is not a regression best-so-far is an upper bound of
    the initial value and of every metric seen. *)
Lemma best_before_upper_bound r n :
  task_type r <> "regression" ->
  (initial_best_mae_error <= best_before r n)%Q
  /\ (forall e, e < n -> (val_mae r e <= best_before r n)%Q).
Proof.
  intros Hty. apply String.eqb_neq in Hty.
  induction n as [|n [IH0 IH]].
  - split; [apply Qle_refl|]. intros e He. lia.
  - rewrite best_before_succ. unfold select_best. rewrite Hty.
    unfold snd. rewrite py_max_Qmax. split.
    + eapply Qle_trans; [exact IH0|apply Q.le_max_r].
    + intros e He. destruct (decide (e = n)) as [->|Hne].
      * apply Q.le_max_l.
      * eapply Qle_trans; [|apply Q.le_max_r]. apply IH. lia.
Qed.


(** The best file after two groups of writes is that of the second
    group, if it has a best copy. *)
Lemma best_file_app (ws1 ws2 : list write) :
  best_file (ws1 ++ ws2)
  = match best_file ws2 with
    | Some state => Some state
    | None => best_file ws1
    end.
Proof.
  induction ws1 as [|w ws1 IH]; cbn.
  - by destruct (best_file ws2).
  - rewrite IH. by destruct (best_file ws2).
Qed.

(** The writes of the epochs [a], ..., [a + k - 1], none of which is
    marked, hold no best copy. *)
Lemma best_file_unmarked r (a k : nat) :
  (forall e, a <= e < a + k -> is_best_at r e = false) ->
  best_file (flat_map (fun e => save_checkpoint (record_of r e)
                                  (is_best_at r e)) (seq a k)) = None.
Proof.
  intros H. apply best_file_none. intros state Hin.
  apply list_elem_of_In, in_flat_map in Hin as (e & He & Hw).
  apply in_seq in He. rewrite (H e) in Hw by lia.
  cbn in Hw. destruct Hw as [Hw|[]]. discriminate Hw.
Qed.

Lemma writes_run_epochs r n :
  writes (run_epochs r n)
  = flat_map (fun e => save_checkpoint (record_of r e) (is_best_at r e))
      (seq 0 n).
Proof. by rewrite run_epochs_unfold. Qed.

(** The best file after the loop is the record of the last marked
    epoch. *)
Lemma best_file_last_marked r n e :
  e < n -> is_best_at r e = true ->
  (forall e', e < e' < n -> is_best_at r e' = false) ->
  best_file (writes (run_epochs r n)) = Some (record_of r e).
Proof.
  intros He Hb Hlater. rewrite writes_run_epochs.
  replace n with (e + (1 + (n - S e))) by lia.
  rewrite seq_app, flat_map_app, best_file_app.
  rewrite seq_app, flat_map_app, best_file_app.
  rewrite best_file_unmarked by (intros e' He'; apply Hlater; lia).
  cbn. by rewrite Hb.
Qed.

(** Among the first [n] epochs either none is marked or there is a last
    marked one. *)
Lemma last_marked r n :
  (forall e, e < n -> is_best_at r e = false)
  \/ exists e, e < n /\ is_best_at r e = true
               /\ forall e', e < e' < n -> is_best_at r e' = false.
Proof.
  induction n as [|n IH].
  - left. intros e He. lia.
  - destruct (is_best_at r n) eqn:Hn.
    + right. exists n. split; [lia|]. split; [done|].
      intros e' He'. lia.
    + destruct IH as [IH|(e & He & Hb & Hlater)].
      * left. intros e He. destruct (decide (e = n)) as [->|]; [done|].
        apply IH. lia.
      * right. exists e. split; [lia|]. split; [done|].
        intros e' He'. destruct (decide (e' = n)) as [->|]; [done|].
        apply Hlater. lia.
Qed.

(** Best-so-far is an extremum of what was seen: in a regression run the
    minimum of the initial value 1e10 and the metrics of the epochs run,
    in every other run their maximum; in both it is one of these
    values. *)
Theorem best_so_far_extremum r n :
  (best_before r n = initial_best_mae_error
   \/ exists e, e < n /\ best_before r n = val_mae r e)
  /\ (task_type r = "regression" ->
      (best_before r n <= initial_best_mae_error)%Q
      /\ forall e, e < n -> (best_before r n <= val_mae r e)%Q)
  /\ (task_type r <> "regression" ->
      (initial_best_mae_error <= best_before r n)%Q
      /\ forall e, e < n -> (val_mae r e <= best_before r n)%Q).
Proof.
  split; [apply best_before_attained|]. split.
  - apply best_before_lower_bound.
  - apply best_before_upper_bound.
Qed.


(** The calls of the epochs return when each of them does. *)
Lemma epochs_return_ok r (a k : nat) :
  (forall e, a <= e < a + k -> epoch_calls r e = Ok tt) ->
  epochs_return r (seq a k) = Ok tt.
Proof.
  revert a. induction k as [|k IH]; intros a H; [done|].
  cbn [seq epochs_return]. rewrite (H a) by lia.
  unfold mbind, result_bind. apply IH. intros e He. apply H. lia.
Qed.

(** The first epoch whose calls raise decides the outcome. *)
Lemma epochs_return_raise r (a k e : nat) (x : exn) :
  a <= e < a + k ->
  (forall e', a <= e' < e -> epoch_calls r e' = Ok tt) ->
  epoch_calls r e = Raise x ->
  epochs_return r (seq a k) = Raise x.
Proof.
  revert a. induction k as [|k IH]; intros a He Hbefore Hx; [lia|].
  cbn [seq epochs_return]. destruct (decide (e = a)) as [->|Hne].
  - by rewrite Hx.
  - rewrite (Hbefore a) by lia. unfold mbind, result_bind.
    apply IH; [lia| |done]. intros e' He'. apply Hbefore. lia.
Qed.

(** The run from the loop on.  The first epoch in which [train],
    [validate] or the scheduler step raises ends the run with that
    exception.  When the calls
    of every epoch return: if some epoch improved on best-so-far, the
    outcome is that of the test pass on the parameters of the last such
    epoch; if none did (in particular when there is no epoch), the reload
    of the best checkpoint raises [FileNotFoundError]. *)
Theorem main_outcome r :
  let n := Z.to_nat (max_epochs r) in
  (forall e x, e < n ->
     (forall e', e' < e -> epoch_calls r e' = Ok tt) ->
     epoch_calls r e = Raise x -> main r = Raise x)
  /\ ((forall e, e < n -> epoch_calls r e = Ok tt) ->
      (forall e, e < n -> improves r e ->
         (forall e', e < e' < n -> ~ improves r e') ->
         main r
         = Progress.validate_pass (dataset r) (print_every r) true
             (test_batches r (model_state r e)))
      /\ ((forall e, e < n -> ~ improves r e) ->
          exists msg, main r = Raise (FileNotFoundError msg))).
Proof.
  intros n. split.
  - intros e x He Hbefore Hx. unfold main. fold n.
    rewrite (epochs_return_raise r 0 n e x); [done|lia| |done].
    intros e' He'. apply Hbefore. lia.
  - intros Hcalls. unfold main. fold n.
    rewrite epochs_return_ok by (intros e He; apply Hcalls; lia).
    unfold mbind at 1, result_bind at 1. split.
    + intros e He Himp Hlater.
      assert (Hsd : record_of r e !! "state_dict"
                    = Some (PParams (model_state r e))) by done.
      unfold load_best, training_loop. fold n.
      rewrite (best_file_last_marked r n e He).
      * unfold mbind, result_bind. by rewrite Hsd.
      * by apply is_best_at_improves.
      * intros e' He'. destruct (is_best_at r e') eqn:Hb; [|done].
        apply is_best_at_improves in Hb. by destruct (Hlater e' He').
    + intros Hnone. unfold load_best, training_loop. fold n.
      rewrite best_file_none; [by eexists|].
      intros state Hin. apply elem_of_writes in Hin.
      destruct Hin as (e & He & [Hw|[_ Hb]]); [discriminate Hw|].
      apply is_best_at_improves in Hb. by destruct (Hnone e He).
Qed.

End Facts.

Lemma best_so_far_extremum_witness :
  (best_before (sample_run "regression") 2 <= initial_best_mae_error)%Q
  /\ (initial_best_mae_error
      <= best_before (sample_run "classification") 2)%Q.
Proof.
  destruct (best_so_far_extremum (sample_run "regression") 2)
    as (_ & Hmin & _).
  destruct (best_so_far_extremum (sample_run "classification") 2)
    as (_ & _ & Hmax).
  split.
  - apply Hmin. reflexivity.
  - apply Hmax. discriminate.
Defined.


Lemma main_outcome_witness :
  main (sample_run "regression")
  = Progress.validate_pass (Config.YStr "ulissigroup_co") 10 true []
  /\ exists msg,
       main (sample_run "classification") = Raise (FileNotFoundError msg).
Proof.
  destruct (main_outcome (sample_run "regression")) as [_ Hreg].
  destruct (main_outcome (sample_run "classification")) as [_ Hcls].
  destruct (Hreg ltac:(intros; reflexivity)) as [Hlast _].
  destruct (Hcls ltac:(intros; reflexivity)) as [_ Hnone].
  split.
  - apply (Hlast 0).
    + simpl. lia.
    + vm_compute. reflexivity.
    + intros e' He'. assert (e' = 1) as -> by (simpl in He'; lia).
      vm_compute. discriminate.
  - apply Hnone.
    intros e He.
    assert (e = 0 \/ e = 1) as [-> | ->] by (simpl in He; lia);
      vm_compute; discriminate.
Defined.

End BestFacts.

(** *** Batch loops: further properties *)

Module ProgressFacts.
Import TestExport Progress.

(** The batch loop with a print interval other than zero: every batch is
    handled, and the indices printed are the multiples of the interval. *)
Lemma validate_loop_ok (print_every : Z) (test : bool)
    (batches : list batch) (i : Z) (acc : test_lists) (printed : list Z) :
  print_every <> 0%Z ->
  validate_loop print_every test i batches acc printed
  = Ok (if test then fold_left collect batches acc else acc,
        printed ++ filter (fun j => (j mod print_every = 0)%Z)
                     (seqZ i (Z.of_nat (length batches)))).
Proof.
  intros Hp. revert i acc printed.
  induction batches as [|data rest IH]; intros i acc printed.
  - cbn. rewrite app_nil_r. by destruct test.
  - cbn [validate_loop]. unfold py_mod.
    rewrite (proj2 (Z.eqb_neq _ _) Hp).
    unfold mbind, result_bind. rewrite IH.
    rewrite (seqZ_cons i) by (cbn [length]; lia).
    replace (Z.pred (Z.of_nat (length (data :: rest))))
      with (Z.of_nat (length rest)) by (cbn [length]; lia).
    replace (Z.succ i) with (i + 1)%Z by lia.
    rewrite filter_cons.
    destruct (Z.eqb_spec (i mod print_every) 0) as [Hz|Hz].
    + rewrite decide_True by done. rewrite <- app_assoc.
      by destruct test.
    + rewrite decide_False by done. by destruct test.
Qed.

(** The steps of one epoch are consecutive from [epoch * len_loader]. *)
Lemma epoch_steps_seq (epoch len_loader : nat) :
  epoch_steps epoch len_loader = seq (epoch * len_loader) len_loader.
Proof.
  unfold epoch_steps.
  replace (seq (epoch * len_loader) len_loader)
    with (seq (epoch * len_loader + 0) len_loader) by (f_equal; lia).
  by rewrite <- fmap_add_seq.
Qed.

(** The logging steps of a run are the consecutive numbers from 0: no
    step is used twice, and the steps of one epoch continue those of the
    epoch before. *)
Theorem run_steps_consecutive (max_epochs len_loader : nat) :
  run_steps max_epochs len_loader = seq 0 (max_epochs * len_loader).
Proof.
  unfold run_steps. induction max_epochs as [|n IH]; [done|].
  rewrite seq_S, flat_map_app, IH. cbn [flat_map].
  rewrite app_nil_r, epoch_steps_seq.
  replace (S n * len_loader) with (n * len_loader + len_loader) by lia.
  by rewrite seq_app.
Qed.



(** With a print interval other than zero a pass over at least one batch
    returns; its progress lines are for the batch indices that are
    multiples of the interval, the first batch always among them, and the
    test pass exports no row. *)
Theorem validate_progress (dataset : Config.yaml) (print_every : Z)
    (test : bool) (batches : list batch) :
  print_every <> 0%Z -> batches <> [] ->
  exists out,
    validate_pass dataset print_every test batches = Ok out
    /\ progress out
       = filter (fun j => (j mod print_every = 0)%Z)
           (seqZ 0 (Z.of_nat (length batches)))
    /\ (forall j, j ∈ progress out
          <-> (0 <= j < Z.of_nat (length batches))%Z
              /\ (j mod print_every = 0)%Z)
    /\ 0%Z ∈ progress out
    /\ csv out = (if test then Some [] else None).
Proof.
  intros Hp Hne. unfold validate_pass.
  rewrite validate_loop_ok by done.
  unfold mbind, result_bind.
  assert (Htail : (if is_qm9 dataset
                   then match batches with
                        | [] => Raise (NameError
                            "local variable 'data' referenced before assignment")
                        | _ :: _ => Ok tt
                        end
                   else Ok tt) = Ok tt).
  { destruct (is_qm9 dataset); [|done]. by destruct batches. }
  rewrite Htail. eexists. split; [reflexivity|]. cbn [progress csv].
  assert (Hmem : forall j,
            j ∈ filter (fun j => (j mod print_every = 0)%Z)
                  (seqZ 0 (Z.of_nat (length batches)))
            <-> (0 <= j < Z.of_nat (length batches))%Z
                /\ (j mod print_every = 0)%Z).
  { intros j. rewrite list_elem_of_filter, elem_of_seqZ. intuition lia. }
  split; [done|]. split; [exact Hmem|]. split.
  - apply Hmem. destruct batches; [done|].
    cbn [length]. split; [lia|done].
  - destruct test; [|done].
    by rewrite TestExportFacts.collect_keeps_ids.
Qed.

Lemma validate_progress_witness :
  exists out,
    validate_pass (Config.YStr "qm9") 2 true
      [ {| y := [1%Q]; denorm_output := [1%Q] |};
        {| y := [2%Q]; denorm_output := [2%Q] |};
        {| y := [3%Q]; denorm_output := [3%Q] |} ]
    = Ok out
    /\ progress out = [0; 2]%Z
    /\ csv out = Some [].
Proof.
  destruct (validate_progress (Config.YStr "qm9") 2 true
              [ {| y := [1%Q]; denorm_output := [1%Q] |};
                {| y := [2%Q]; denorm_output := [2%Q] |};
                {| y := [3%Q]; denorm_output := [3%Q] |} ])
    as (out & Hrun & Hprog & _ & _ & Hcsv); [lia|discriminate|].
  exists out. split; [exact Hrun|]. split; [exact Hprog|exact Hcsv].
Defined.

(** A pass over no batch: for the dataset [qm9] the report after the
    loop reads the loop variables and raises; for every other dataset the
    pass returns with no progress line and, in the test pass, an empty
    export.  The print interval plays no part, zero included. *)
Theorem validate_empty_loader (dataset : Config.yaml) (print_every : Z)
    (test : bool) :
  (is_qm9 dataset = true ->
   exists msg,
     validate_pass dataset print_every test [] = Raise (NameError msg))
  /\ (is_qm9 dataset = false ->
      validate_pass dataset print_every test []
      = Ok {| progress := [];
              csv := if test then Some [] else None |}).
Proof.
  unfold validate_pass. cbn. split; intros ->; cbn.
  - by eexists.
  - by destruct test.
Qed.

Lemma validate_empty_loader_witness :
  (exists msg,
     validate_pass (Config.YStr "qm9") 10 false [] = Raise (NameError msg))
  /\ validate_pass (Config.YStr "ulissigroup_co") 10 true []
     = Ok {| progress := []; csv := Some [] |}.
Proof.
  split.
  - apply (validate_empty_loader (Config.YStr "qm9") 10 false).
    reflexivity.
  - apply (validate_empty_loader (Config.YStr "ulissigroup_co") 10 true).
    reflexivity.
Defined.

(** The test pass collects the target and the prediction of every
    sample, in the order of the loader, while the identifier list stays
    empty. *)
Theorem test_pass_collects (batches : list batch) :
  let acc := fold_left collect batches empty_lists in
  test_targets acc = flat_map y batches
  /\ test_preds acc = flat_map denorm_output batches
  /\ test_cif_ids acc = [].
Proof.
  intros acc. subst acc.
  destruct (TestExportFacts.collect_targets_preds batches empty_lists)
    as [Ht Hp].
  split; [exact Ht|]. split; [exact Hp|].
  by rewrite TestExportFacts.collect_keeps_ids.
Qed.

End ProgressFacts.
